(** * nexmeet-bot: the chat bot, its session map and the HTTP routes

    A shallow embedding of [src/index.js], [src/routes/events.js] and
    [src/routes/system.js].  The three remote collaborators (the chat
    platform, the hosted table [event_details] and the completion
    service) are an explicit environment; a handler is a function of the
    environment and of the process state (the session map and the list
    of calls made so far). *)

From Stdlib Require Import ZArith String Ascii List Bool Lia Permutation.
From Stdlib Require Import DecimalString.
From Stdlib Require Import Sorted.
From Stdlib Require QArith.
From stdpp Require Import base option list strings gmap.
Import ListNotations.

Open Scope Z_scope.
Open Scope string_scope.
Open Scope list_scope.

(** ** Strings *)

Definition nl : string := String (ascii_of_nat 10) "".
Definition dquote : string := String (ascii_of_nat 34) "".

(** [`${n}`] for an integer [n]. *)
Definition show_Z (n : Z) : string := NilZero.string_of_int (Z.to_int n).

(** [`${xs.length}`]. *)
Definition show_nat (n : nat) : string := show_Z (Z.of_nat n).

(** [s] begins with [p] (JavaScript's [s.startsWith(p)]). *)
Fixpoint starts_with (p s : string) : bool :=
  match p, s with
  | EmptyString, _ => true
  | String _ _, EmptyString => false
  | String c p', String d s' => Ascii.eqb c d && starts_with p' s'
  end.

(** [needle] occurs in [hay] (JavaScript's [hay.includes(needle)]). *)
Fixpoint includes (needle hay : string) : bool :=
  starts_with needle hay ||
  match hay with
  | EmptyString => false
  | String _ hay' => includes needle hay'
  end.

(** The character [c] occurs in [s]. *)
Fixpoint occurs (c : ascii) (s : string) : bool :=
  match s with
  | EmptyString => false
  | String d s' => Ascii.eqb c d || occurs c s'
  end.

(** Lower case of the letters A to Z; other characters are left as they
    are.  The table folds at least these letters; what it does with
    letters outside A to Z is its own. *)
Definition lower (c : ascii) : ascii :=
  let n := nat_of_ascii c in
  if ((65 <=? n) && (n <=? 90))%nat then ascii_of_nat (n + 32) else c.

Fixpoint lowercase (s : string) : string :=
  match s with
  | EmptyString => EmptyString
  | String c s' => String (lower c) (lowercase s')
  end.

(** ** Data model *)

(** A row of the table [event_details], with the columns the program
    reads.  Instants are milliseconds since the epoch; the table hands
    them out as non-empty timestamp strings. *)
Record Event := {
  id : string;
  event_title : string;
  event_description : string;
  event_location : string;
  event_startdate : Z;
  event_enddate : Z;
  event_duration : Z;
  team_size : Z;
  isEventFree : bool;
  event_price : Z;
  event_registration_startdate : Z;
  event_registration_enddate : Z;
  redirection_link : option string;
  organizer_name : string;
  organizer_email : string;
  organizer_contact : string;
  event_category : string;
  event_likes : Z;
  is_approved : bool;
  created_at : Z
}.

(** The values of [userSessions]: [{ state: "AWAITING_LOCATION" }] or
    [{ state: "AWAITING_CATEGORY" }]. *)
Inductive SessionState := AWAITING_LOCATION | AWAITING_CATEGORY.

Record Session := { state : SessionState }.

#[global] Instance SessionState_eq_dec : EqDecision SessionState.
Proof. solve_decision. Defined.

#[global] Instance Session_eq_dec : EqDecision Session.
Proof. solve_decision. Defined.

(** ** The table and its read queries *)

Inductive Value :=
| VText (s : string)
| VNum (n : Z)
| VBool (b : bool)
| VTime (t : Z).

Inductive Filter :=
| FGt (column : string) (v : Value)
| FLt (column : string) (v : Value)
| FEq (column : string) (v : Value)
| FILike (column : string) (pattern : string)
| FTextSearch (column : string) (query : string).

Record Query := {
  q_from : string;
  q_select : string;
  q_filters : list Filter;
  q_order : option (string * bool);   (* column, ascending *)
  q_limit : option nat
}.

(** The query builder of the store client, one function per method. *)
Module Supabase.
Definition from (table : string) : Query :=
  {| q_from := table; q_select := "*"; q_filters := [];
     q_order := None; q_limit := None |}.

Definition select (columns : string) (q : Query) : Query :=
  {| q_from := q_from q; q_select := columns; q_filters := q_filters q;
     q_order := q_order q; q_limit := q_limit q |}.

Definition add_filter (f : Filter) (q : Query) : Query :=
  {| q_from := q_from q; q_select := q_select q;
     q_filters := q_filters q ++ [f];
     q_order := q_order q; q_limit := q_limit q |}.

Definition ilike (column pattern : string) := add_filter (FILike column pattern).

Definition textSearch (column query : string) := add_filter (FTextSearch column query).

Definition order (column : string) (ascending : bool) (q : Query) : Query :=
  {| q_from := q_from q; q_select := q_select q; q_filters := q_filters q;
     q_order := Some (column, ascending); q_limit := q_limit q |}.

Definition limit (n : nat) (q : Query) : Query :=
  {| q_from := q_from q; q_select := q_select q; q_filters := q_filters q;
     q_order := q_order q; q_limit := Some n |}.

Definition gt (column : string) (v : Value) := add_filter (FGt column v).

Definition lt (column : string) (v : Value) := add_filter (FLt column v).

Definition eq (column : string) (v : Value) := add_filter (FEq column v).

End Supabase.

Notation "q |> f" := (f q) (at level 45, left associativity, only parsing).

(** The cell of row [e] in a column; [None] for a column the program
    never names. *)
Definition column_value (column : string) (e : Event) : option Value :=
  if String.eqb column "event_enddate" then Some (VTime (event_enddate e))
  else if String.eqb column "created_at" then Some (VTime (created_at e))
  else if String.eqb column "is_approved" then Some (VBool (is_approved e))
  else if String.eqb column "event_likes" then Some (VNum (event_likes e))
  else if String.eqb column "event_location" then Some (VText (event_location e))
  else if String.eqb column "event_category" then Some (VText (event_category e))
  else if String.eqb column "event_description" then Some (VText (event_description e))
  else None.

(** A text is the bytes of its characters: a character is one byte that
    is no continuation byte, followed by its continuation bytes (the
    bytes 128 to 191), if it has any. *)
Definition continuation (c : ascii) : bool :=
  let n := nat_of_ascii c in ((128 <=? n) && (n <=? 191))%nat.

(** [s] without the continuation bytes it begins with. *)
Fixpoint skip_continuation (s : string) : string :=
  match s with
  | EmptyString => EmptyString
  | String c s' => if continuation c then skip_continuation s' else s
  end.

(** The table's pattern match: [%] stands for any run of characters, [_]
    for any one character, a backslash makes the next character literal.
    A pattern that ends in a lone backslash is refused by the table; no
    pattern of this program does, each ends in [%]. *)
Fixpoint like_match (p s : string) : bool :=
  match p with
  | EmptyString => match s with EmptyString => true | _ => false end
  | String c p' =>
      if Ascii.eqb c "%" then
        (fix any (s : string) : bool :=
           like_match p' s ||
           match s with
           | EmptyString => false
           | String _ s' => any s'
           end) s
      else if Ascii.eqb c "_" then
        match s with
        | EmptyString => false
        | String d s' => negb (continuation d) && like_match p' (skip_continuation s')
        end
      else if Ascii.eqb c "\" then
        match p' with
        | EmptyString => false
        | String e p'' =>
            match s with
            | EmptyString => false
            | String d s' => Ascii.eqb e d && like_match p'' s'
            end
        end
      else
        match s with
        | EmptyString => false
        | String d s' => Ascii.eqb c d && like_match p' s'
        end
  end.

(** The request layer in front of the table reads [*] in a pattern as
    [%]. *)
Fixpoint star_to_percent (p : string) : string :=
  match p with
  | EmptyString => EmptyString
  | String c p' =>
      String (if Ascii.eqb c "*" then "%"%char else c) (star_to_percent p')
  end.

(** Case-insensitive pattern match, as the [ilike] operator applies it. *)
Definition ilike_match (pattern text : string) : bool :=
  like_match (lowercase (star_to_percent pattern)) (lowercase text).

Definition value_ltb (a b : Value) : bool :=
  match a, b with
  | VTime x, VTime y => Z.ltb x y
  | VNum x, VNum y => Z.ltb x y
  | VText x, VText y => String.ltb x y
  | VBool x, VBool y => negb x && y
  | _, _ => false
  end.

Definition value_eqb (a b : Value) : bool :=
  match a, b with
  | VTime x, VTime y => Z.eqb x y
  | VNum x, VNum y => Z.eqb x y
  | VText x, VText y => String.eqb x y
  | VBool x, VBool y => Bool.eqb x y
  | _, _ => false
  end.

Section Table.
(** The table's full-text match of a query against a text; it is the
    table's own and is left open. *)
Variable fts : string -> string -> bool.

Definition eval_filter (f : Filter) (e : Event) : bool :=
  match f with
  | FGt c v =>
      match column_value c e with Some x => value_ltb v x | None => false end
  | FLt c v =>
      match column_value c e with Some x => value_ltb x v | None => false end
  | FEq c v =>
      match column_value c e with Some x => value_eqb x v | None => false end
  | FILike c p =>
      match column_value c e with
      | Some (VText t) => ilike_match p t
      | _ => false
      end
  | FTextSearch c q =>
      match column_value c e with
      | Some (VText t) => fts q t
      | _ => false
      end
  end.

Definition matches (fs : list Filter) (e : Event) : bool :=
  forallb (fun f => eval_filter f e) fs.

(** [ORDER BY column]: rows that compare equal keep their order. *)
Definition before (column : string) (ascending : bool) (a b : Event) : bool :=
  match column_value column a, column_value column b with
  | Some x, Some y => if ascending then negb (value_ltb y x) else negb (value_ltb x y)
  | _, _ => true
  end.

Fixpoint insert_sorted (column : string) (ascending : bool)
    (e : Event) (l : list Event) : list Event :=
  match l with
  | [] => [e]
  | x :: l' =>
      if before column ascending e x then e :: l
      else x :: insert_sorted column ascending e l'
  end.

Definition sort_rows (column : string) (ascending : bool)
    (l : list Event) : list Event :=
  fold_right (insert_sorted column ascending) [] l.

(** What the table answers to a read query when it is reachable:
    filter, then order, then cut. *)
Definition run_query (q : Query) (rows : list Event) : list Event :=
  let selected := List.filter (matches (q_filters q)) rows in
  let ordered :=
    match q_order q with
    | Some (c, asc) => sort_rows c asc selected
    | None => selected
    end in
  match q_limit q with
  | Some n => firstn n ordered
  | None => ordered
  end.
End Table.

(** ** The environment and the process state *)

(** What the store client hands back: [{ data, error }]. *)
Record QueryResult := {
  data : option (list Event);
  error : option string
}.

(** Everything outside the process, for the time one handler runs. *)
Record Env := {
  now : Z;                              (* [new Date()] *)
  rows : list Event;                    (* the table [event_details] *)
  fault : Query -> option string;       (* the error a query is answered with, if any *)
  fts : string -> string -> bool;       (* the table's full-text match *)
  deliver : nat -> bool;                (* does the chat-platform call made after [n] calls succeed *)
  completion : string -> option string; (* the reply to a prompt; [None] when the call or reading the reply throws *)
  model_name : string;                  (* [process.env.MISTRAL_MODEL_NAME] *)
  node_env : option string;             (* [process.env.NODE_ENV] *)
  moment_format : string -> Z -> string (* [moment(t).format(f)] *)
}.

(** The calls a handler makes, in the order it makes them.  A call to
    the chat platform carries its outcome. *)
Inductive Call :=
| SendMessage (chatId : Z) (text : string) (parse_mode : option string) (ok : bool)
| AnswerCallbackQuery (queryId : string) (ok : bool)
| MistralChat (model : string) (content : string)
| Select (q : Query)
| SessionsSet (chatId : Z) (s : Session)
| SessionsDelete (chatId : Z)
| ConsoleError (label : string).

(** The process state: the map [userSessions] and the calls made so far,
    latest first. *)
Record World := {
  userSessions : gmap Z Session;
  log : list Call
}.

Definition record (c : Call) (w : World) : World :=
  {| userSessions := userSessions w; log := c :: log w |}.

(** ** Handlers: state, calls and exceptions *)

Inductive Completion (A : Type) :=
| Normal (a : A)
| Throw (message : string).
Arguments Normal {A} a.
Arguments Throw {A} message.

Definition Async (A : Type) : Type := Env -> World -> World * Completion A.

Definition ret {A} (a : A) : Async A := fun _ w => (w, Normal a).

Definition bind {A B} (c : Async A) (k : A -> Async B) : Async B :=
  fun env w =>
    match c env w with
    | (w', Normal a) => k a env w'
    | (w', Throw m) => (w', Throw m)
    end.

Definition throw {A} (message : string) : Async A := fun _ w => (w, Throw message).

(** [try { body } catch (error) { handler }]. *)
Definition try_catch {A} (body : Async A) (handler : string -> Async A) : Async A :=
  fun env w =>
    match body env w with
    | (w', Normal a) => (w', Normal a)
    | (w', Throw m) => handler m env w'
    end.

Notation "x <- c ;; k" := (bind c (fun x => k))
  (at level 100, c at next level, right associativity).
Notation "c ;; k" := (bind c (fun _ => k))
  (at level 100, right associativity).

(** [for (const x of xs) { await f(x) }]. *)
Fixpoint for_each {A} (xs : list A) (f : A -> Async unit) : Async unit :=
  match xs with
  | [] => ret tt
  | x :: xs' => f x ;; for_each xs' f
  end.

(** The calls of one run of a handler from session map [m], oldest
    first, with the session map it leaves and how it completes. *)
Definition run {A} (h : Async A) (env : Env) (m : gmap Z Session)
  : gmap Z Session * list Call * Completion A :=
  let '(w, r) := h env {| userSessions := m; log := [] |} in
  (userSessions w, rev (log w), r).

(** *** The collaborators *)

Definition sendMessage (chatId : Z) (text : string) (parse_mode : option string)
  : Async unit :=
  fun env w =>
    let ok := deliver env (length (log w)) in
    (record (SendMessage chatId text parse_mode ok) w,
     if ok then Normal tt else Throw "ETELEGRAM").

Definition answerCallbackQuery (queryId : string) : Async unit :=
  fun env w =>
    let ok := deliver env (length (log w)) in
    (record (AnswerCallbackQuery queryId ok) w,
     if ok then Normal tt else Throw "ETELEGRAM").

Definition console_error (label : string) : Async unit :=
  fun _ w => (record (ConsoleError label) w, Normal tt).

(** The answer of the table to a query. *)
Definition answer (env : Env) (q : Query) : QueryResult :=
  match fault env q with
  | Some message => {| data := None; error := Some message |}
  | None => {| data := Some (run_query (fts env) q (rows env)); error := None |}
  end.

(** [await supabase.from(...)...]: the client reports a failure in
    [error], it does not throw. *)
Definition supabase (q : Query) : Async QueryResult :=
  fun env w => (record (Select q) w, Normal (answer env q)).

(** [if (error) throw error;] followed by the first use of the rows:
    [events.length] throws when [events] is [null]. *)
Definition rows_or_throw (r : QueryResult) : Async (list Event) :=
  match error r with
  | Some message => throw message
  | None =>
      match data r with
      | Some events => ret events
      | None => throw "TypeError"
      end
  end.

Definition mistral_chat (content : string) : Async string :=
  fun env w =>
    (record (MistralChat (model_name env) content) w,
     match completion env content with
     | Some reply => Normal reply
     | None => Throw "EMISTRAL"
     end).

Definition date_now : Async Z := fun env w => (w, Normal (now env)).

Definition sessions_get (chatId : Z) : Async (option Session) :=
  fun _ w => (w, Normal (userSessions w !! chatId)).

Definition sessions_set (chatId : Z) (s : Session) : Async unit :=
  fun _ w =>
    ({| userSessions := <[chatId := s]> (userSessions w);
        log := SessionsSet chatId s :: log w |}, Normal tt).

Definition sessions_delete (chatId : Z) : Async unit :=
  fun _ w =>
    ({| userSessions := delete chatId (userSessions w);
        log := SessionsDelete chatId :: log w |}, Normal tt).

(** ** The presenter *)

Definition join (pieces : list string) : string :=
  fold_right String.append "" pieces.

(** JavaScript's truth value of an optional text: [null] and the empty
    text are false. *)
Definition truthy (o : option string) : bool :=
  match o with
  | Some s => negb (String.eqb s "")
  | None => false
  end.

Definition price_text (event : Event) : string :=
  if isEventFree event then "Free" else "₹" +:+ show_Z (event_price event).

Definition register_line (event : Event) : string :=
  if truthy (redirection_link event)
  then "• Register: " +:+ default "" (redirection_link event)
  else "".

Definition formatEventMessage (moment : string -> Z -> string) (event : Event)
  : string :=
  join [
    nl; "<b>"; event_title event; "</b>"; nl;
    nl;
    "📝 <b>Description:</b> "; event_description event; nl;
    "📍 <b>Location:</b> "; event_location event; nl;
    "📅 <b>Start Date:</b> ";
      moment "MMMM Do YYYY, h:mm a" (event_startdate event); nl;
    "⏳ <b>Duration:</b> "; show_Z (event_duration event); " hours"; nl;
    "👥 <b>Team Size:</b> "; show_Z (team_size event); nl;
    "💰 <b>Price:</b> "; price_text event; nl;
    nl;
    "<b>Registration:</b>"; nl;
    "• Start: "; moment "MMMM Do YYYY" (event_registration_startdate event); nl;
    "• End: "; moment "MMMM Do YYYY" (event_registration_enddate event); nl;
    register_line event; nl;
    nl;
    "<b>Organizer Details:</b>"; nl;
    "• Name: "; organizer_name event; nl;
    "• Email: "; organizer_email event; nl;
    "• Contact: "; organizer_contact event; nl;
    nl;
    "🏷️ <b>Category:</b> "; event_category event; nl;
    "❤️ <b>Likes:</b> "; show_Z (event_likes event); nl;
    nl;
    "🔗 <b>Event Link:</b> https://www.nexmeet.social/explore-events/";
      id event; nl
  ].

(** ** The chat front end *)

(** [const message = formatEventMessage(event);
     await bot.sendMessage(chatId, message, { parse_mode: "HTML" });] *)
Definition send_event (chatId : Z) (event : Event) : Async unit :=
  fun env =>
    sendMessage chatId (formatEventMessage (moment_format env) event)
      (Some "HTML") env.

Definition fetch_error_text : string :=
  "Sorry, there was an error fetching the events. Please try again later.".

Definition handleActiveHackathons (chatId : Z) : Async unit :=
  try_catch
    (currentDate <- date_now ;;
     r <- supabase
            (Supabase.from "event_details"
               |> Supabase.select "*"
               |> Supabase.gt "event_enddate" (VTime currentDate)
               |> Supabase.eq "is_approved" (VBool true)
               |> Supabase.order "created_at" false) ;;
     events <- rows_or_throw r ;;
     if (length events =? 0)%nat
     then sendMessage chatId "No active hackathons found at the moment." None
     else for_each events (send_event chatId))
    (fun _ =>
       console_error "Error fetching active hackathons:" ;;
       sendMessage chatId fetch_error_text None).

Definition handlePastEvents (chatId : Z) : Async unit :=
  try_catch
    (currentDate <- date_now ;;
     r <- supabase
            (Supabase.from "event_details"
               |> Supabase.select "*"
               |> Supabase.lt "event_enddate" (VTime currentDate)
               |> Supabase.eq "is_approved" (VBool true)
               |> Supabase.order "event_enddate" false
               |> Supabase.limit 5) ;;
     events <- rows_or_throw r ;;
     if (length events =? 0)%nat
     then sendMessage chatId "No past events found." None
     else for_each events (send_event chatId))
    (fun _ =>
       console_error "Error fetching past events:" ;;
       sendMessage chatId fetch_error_text None).

Definition handlePopularEvents (chatId : Z) : Async unit :=
  try_catch
    (r <- supabase
            (Supabase.from "event_details"
               |> Supabase.select "*"
               |> Supabase.eq "is_approved" (VBool true)
               |> Supabase.order "event_likes" false
               |> Supabase.limit 5) ;;
     events <- rows_or_throw r ;;
     if (length events =? 0)%nat
     then sendMessage chatId "No events found." None
     else for_each events (send_event chatId))
    (fun _ =>
       console_error "Error fetching popular events:" ;;
       sendMessage chatId fetch_error_text None).

Definition selection_error_text : string :=
  "Sorry, there was an error processing your selection. Please try again.".

(** [bot.on("callback_query", ...)]: [chatId] is
    [callbackQuery.message.chat.id], [action] is [callbackQuery.data]. *)
Definition on_callback_query (queryId : string) (chatId : Z) (action : string)
  : Async unit :=
  try_catch
    (answerCallbackQuery queryId ;;
     if String.eqb action "active_hackathons" then
       sendMessage chatId "🔍 Searching for active hackathons..." None ;;
       handleActiveHackathons chatId
     else if String.eqb action "past_events" then
       sendMessage chatId "🔍 Fetching past events..." None ;;
       handlePastEvents chatId
     else if String.eqb action "search_location" then
       sessions_set chatId {| state := AWAITING_LOCATION |} ;;
       sendMessage chatId "📍 Please enter the location you want to search for:" None
     else if String.eqb action "search_category" then
       sessions_set chatId {| state := AWAITING_CATEGORY |} ;;
       sendMessage chatId "🏷️ Please enter the category you want to search for:" None
     else if String.eqb action "popular_events" then
       sendMessage chatId "🔍 Finding the most popular events..." None ;;
       handlePopularEvents chatId
     else ret tt)
    (fun _ =>
       console_error "Error handling callback query:" ;;
       sendMessage chatId selection_error_text None).

Definition request_error_text : string :=
  "Sorry, there was an error processing your request. Please try again later.".

(** [bot.on("text", ...)]: [chatId] is [msg.chat.id], [text] is
    [msg.text]. *)
Definition on_text (chatId : Z) (text : string) : Async unit :=
  session <- sessions_get chatId ;;
  match session with
  | None => ret tt
  | Some session =>
      try_catch
        (match state session with
         | AWAITING_LOCATION =>
             sendMessage chatId ("🔍 Searching for events in " +:+ text +:+ "...") None ;;
             r <- supabase
                    (Supabase.from "event_details"
                       |> Supabase.select "*"
                       |> Supabase.ilike "event_location" ("%" +:+ text +:+ "%")
                       |> Supabase.eq "is_approved" (VBool true)) ;;
             events <- rows_or_throw r ;;
             (if (length events =? 0)%nat
              then sendMessage chatId ("📭 No events found in " +:+ text) None
              else
                sendMessage chatId
                  ("📍 Found " +:+ show_nat (length events) +:+ " events in "
                     +:+ text +:+ ":") None ;;
                for_each events (send_event chatId)) ;;
             sessions_delete chatId
         | AWAITING_CATEGORY =>
             sendMessage chatId
               ("🔍 Searching for events in category " +:+ text +:+ "...") None ;;
             r <- supabase
                    (Supabase.from "event_details"
                       |> Supabase.select "*"
                       |> Supabase.ilike "event_category" ("%" +:+ text +:+ "%")
                       |> Supabase.eq "is_approved" (VBool true)) ;;
             events <- rows_or_throw r ;;
             (if (length events =? 0)%nat
              then sendMessage chatId ("📭 No events found in category " +:+ text) None
              else
                sendMessage chatId
                  ("🏷️ Found " +:+ show_nat (length events)
                     +:+ " events in category " +:+ text +:+ ":") None ;;
                for_each events (send_event chatId)) ;;
             sessions_delete chatId
         end)
        (fun _ =>
           console_error "Error processing text message:" ;;
           sendMessage chatId request_error_text None ;;
           sessions_delete chatId)
  end.

Definition ask_prompt (query : string) : string :=
  "Given this event query: " +:+ dquote +:+ query +:+ dquote +:+
  ", help me understand what kind of events the user is looking for. Consider factors like timing, category, and location.".

Definition ask_error_text : string :=
  "Sorry, I couldn't process your request right now. Please try again later.".

(** [bot.onText(/\/ask (.+)/, ...)]: [query] is [match[1]]. *)
Definition on_ask (chatId : Z) (query : string) : Async unit :=
  try_catch
    (sendMessage chatId "🤖 Processing your request with AI..." None ;;
     aiResponse <- mistral_chat (ask_prompt query) ;;
     sendMessage chatId "🔍 Searching for matching events..." None ;;
     r <- supabase
            (Supabase.from "event_details"
               |> Supabase.select "*"
               |> Supabase.eq "is_approved" (VBool true)
               |> Supabase.textSearch "event_description" query
               |> Supabase.limit 5) ;;
     events <- rows_or_throw r ;;
     if (length events =? 0)%nat
     then sendMessage chatId "📭 I couldn't find any events matching your criteria." None
     else
       sendMessage chatId
         ("✨ Found " +:+ show_nat (length events)
            +:+ " events that might interest you:") None ;;
       for_each events (send_event chatId))
    (fun _ =>
       console_error "Error processing AI query:" ;;
       sendMessage chatId ask_error_text None).

(** ** The HTTP front end *)

Record ServerInfo := {
  server_status : string;
  server_timestamp : Z;
  environment : string
}.

Record DatabaseInfo := {
  database_status : string;
  database_timestamp : option Z;
  database_error : option string
}.

Inductive Body :=
| JRows (rows : option (list Event))   (* [res.json(data)] *)
| JError (message : string)            (* [{ error: error.message }] *)
| JStatus (status : string) (server : ServerInfo) (database : DatabaseInfo).

Record Response := {
  status_code : nat;
  body : Body
}.

(** [if (error) throw error; res.json(data);] inside
    [try { } catch (error) { res.status(500).json({ error: error.message }) }]. *)
Definition respond (r : QueryResult) : Response :=
  match error r with
  | Some message => {| status_code := 500; body := JError message |}
  | None => {| status_code := 200; body := JRows (data r) |}
  end.

(** [GET /api/events/active] *)
Definition get_active (env : Env) : Response :=
  let currentDate := now env in
  respond (answer env
    (Supabase.from "event_details"
       |> Supabase.select "*"
       |> Supabase.gt "event_enddate" (VTime currentDate)
       |> Supabase.eq "is_approved" (VBool true)
       |> Supabase.order "created_at" false)).

(** [GET /api/events/past] *)
Definition get_past (env : Env) : Response :=
  let currentDate := now env in
  respond (answer env
    (Supabase.from "event_details"
       |> Supabase.select "*"
       |> Supabase.lt "event_enddate" (VTime currentDate)
       |> Supabase.eq "is_approved" (VBool true)
       |> Supabase.order "event_enddate" false
       |> Supabase.limit 5)).

(** [GET /api/events/location/:location] *)
Definition get_location (location : string) (env : Env) : Response :=
  respond (answer env
    (Supabase.from "event_details"
       |> Supabase.select "*"
       |> Supabase.ilike "event_location" ("%" +:+ location +:+ "%")
       |> Supabase.eq "is_approved" (VBool true))).

(** [GET /api/events/category/:category] *)
Definition get_category (category : string) (env : Env) : Response :=
  respond (answer env
    (Supabase.from "event_details"
       |> Supabase.select "*"
       |> Supabase.ilike "event_category" ("%" +:+ category +:+ "%")
       |> Supabase.eq "is_approved" (VBool true))).

(** [GET /api/events/popular] *)
Definition get_popular (env : Env) : Response :=
  respond (answer env
    (Supabase.from "event_details"
       |> Supabase.select "*"
       |> Supabase.eq "is_approved" (VBool true)
       |> Supabase.order "event_likes" false
       |> Supabase.limit 5)).

(** [process.env.NODE_ENV || 'development'] *)
Definition environment_tag (env : Env) : string :=
  if truthy (node_env env) then default "" (node_env env) else "development".

(** The read of [GET /api/system/status]. *)
Definition status_probe : Query :=
  Supabase.from "event_details"
    |> Supabase.select "created_at"
    |> Supabase.limit 1.

(** [GET /api/system/status]: [data?.[0]?.created_at || new Date()]. *)
Definition get_status (env : Env) : Response :=
  let r := answer env status_probe in
  let server :=
    {| server_status := "running"; server_timestamp := now env;
       environment := environment_tag env |} in
  match error r with
  | Some message =>
      {| status_code := 500;
         body := JStatus "error" server
                   {| database_status := "error"; database_timestamp := None;
                      database_error := Some message |} |}
  | None =>
      {| status_code := 200;
         body := JStatus "ok" server
                   {| database_status := "connected";
                      database_timestamp :=
                        Some match data r with
                             | Some (first :: _) => created_at first
                             | _ => now env
                             end;
                      database_error := None |} |}
  end.

(** ** Runs of handlers *)

Definition sessions_after {A} (h : Async A) (env : Env) (m : gmap Z Session)
  : gmap Z Session := (run h env m).1.1.

Definition calls_of {A} (h : Async A) (env : Env) (m : gmap Z Session)
  : list Call := (run h env m).1.2.

(** The message that shows one event. *)
Definition event_call (env : Env) (chatId : Z) (ok : bool) (e : Event) : Call :=
  SendMessage chatId (formatEventMessage (moment_format env) e) (Some "HTML") ok.

Definition is_event_call (c : Call) : bool :=
  match c with
  | SendMessage _ _ (Some _) _ => true
  | _ => false
  end.

Definition is_select (c : Call) : bool :=
  match c with Select _ => true | _ => false end.

Definition is_chat (c : Call) : bool :=
  match c with MistralChat _ _ => true | _ => false end.

(** The events a run shows to the user, the reads it issues and the
    completions it asks for. *)
Definition rendered (calls : list Call) : list Call := List.filter is_event_call calls.
Definition selects (calls : list Call) : list Call := List.filter is_select calls.
Definition chats (calls : list Call) : list Call := List.filter is_chat calls.

(** [a] is called before [b]. *)
Definition precedes (a b : Call) (calls : list Call) : Prop :=
  exists i j : nat, (i < j)%nat /\ calls !! i = Some a /\ calls !! j = Some b.

(** ** Sample environments *)

Definition sample_event (name place kind : string) (approved free : bool)
    (ends likes : Z) : Event :=
  {| id := name; event_title := name; event_description := name;
     event_location := place; event_startdate := ends - 3600000;
     event_enddate := ends; event_duration := 1; team_size := 4;
     isEventFree := free; event_price := 250;
     event_registration_startdate := ends - 7200000;
     event_registration_enddate := ends - 3600000;
     redirection_link := None;
     organizer_name := "Asha"; organizer_email := "asha@example.org";
     organizer_contact := "000";
     event_category := kind; event_likes := likes;
     is_approved := approved; created_at := ends - 9000000 |}.

Definition sample_rows : list Event :=
  [ sample_event "draft" "Pune" "web" false true 3000 9;
    sample_event "hack" "Pune" "ai" true true 3000 5;
    sample_event "meet" "Delhi" "web" true false 1000 7 ].

(** Every collaborator answers. *)
Definition env_up : Env :=
  {| now := 2000; rows := sample_rows; fault := fun _ => None;
     fts := includes; deliver := fun _ => true;
     completion := fun _ => Some "a meetup"; model_name := "mistral-tiny";
     node_env := None; moment_format := fun _ t => show_Z t |}.

(** The table refuses every query. *)
Definition env_store_down : Env :=
  {| now := 2000; rows := sample_rows; fault := fun _ => Some "fetch failed";
     fts := includes; deliver := fun _ => true;
     completion := fun _ => Some "a meetup"; model_name := "mistral-tiny";
     node_env := None; moment_format := fun _ t => show_Z t |}.

(** The table refuses every query and the chat platform refuses the
    fourth call of the run. *)
Definition env_report_lost : Env :=
  {| now := 2000; rows := sample_rows; fault := fun _ => Some "fetch failed";
     fts := includes; deliver := fun n => negb (n =? 3)%nat;
     completion := fun _ => Some "a meetup"; model_name := "mistral-tiny";
     node_env := None; moment_format := fun _ t => show_Z t |}.

(** The chat platform refuses the first call of the run. *)
Definition env_first_refused : Env :=
  {| now := 2000; rows := sample_rows; fault := fun _ => None;
     fts := includes; deliver := fun n => negb (n =? 0)%nat;
     completion := fun _ => Some "a meetup"; model_name := "mistral-tiny";
     node_env := None; moment_format := fun _ t => show_Z t |}.

(** The completion service does not answer. *)
Definition env_completion_down : Env :=
  {| now := 2000; rows := sample_rows; fault := fun _ => None;
     fts := includes; deliver := fun _ => true;
     completion := fun _ => None; model_name := "mistral-tiny";
     node_env := None; moment_format := fun _ t => show_Z t |}.

(** A free event whose title names a sum of money. *)
Definition free_event_with_prize : Event :=
  {| id := "e1"; event_title := "Win ₹5000"; event_description := "A hackathon";
     event_location := "Pune"; event_startdate := 1000; event_enddate := 3000;
     event_duration := 2; team_size := 4;
     isEventFree := true; event_price := 0;
     event_registration_startdate := 0; event_registration_enddate := 900;
     redirection_link := None;
     organizer_name := "Asha"; organizer_email := "asha@example.org";
     organizer_contact := "000";
     event_category := "ai"; event_likes := 3;
     is_approved := true; created_at := 0 |}.

(** Seven approved events that have ended, with one to seven likes. *)
Definition busy_rows : list Event :=
  map (fun n => sample_event "e" "Pune" "ai" true true (100 * n) n)
    [1; 2; 3; 4; 5; 6; 7].

Definition env_busy : Env :=
  {| now := 2000; rows := busy_rows; fault := fun _ => None;
     fts := includes; deliver := fun _ => true;
     completion := fun _ => Some "a meetup"; model_name := "mistral-tiny";
     node_env := None; moment_format := fun _ t => show_Z t |}.

(** The table refuses every query and the chat platform refuses the
    fifth call of the run. *)
Definition env_apology_lost : Env :=
  {| now := 2000; rows := sample_rows; fault := fun _ => Some "fetch failed";
     fts := includes; deliver := fun n => negb (n =? 4)%nat;
     completion := fun _ => Some "a meetup"; model_name := "mistral-tiny";
     node_env := None; moment_format := fun _ t => show_Z t |}.

(** Every collaborator answers, at the instant the event [hack] of the
    sample table ends. *)
Definition env_closing : Env :=
  {| now := 3000; rows := sample_rows; fault := fun _ => None;
     fts := includes; deliver := fun _ => true;
     completion := fun _ => Some "a meetup"; model_name := "mistral-tiny";
     node_env := None; moment_format := fun _ t => show_Z t |}.

(** The status line and the read of the text handler in each state. *)
Definition searching_text (s : SessionState) (text : string) : string :=
  match s with
  | AWAITING_LOCATION => "🔍 Searching for events in " +:+ text +:+ "..."
  | AWAITING_CATEGORY => "🔍 Searching for events in category " +:+ text +:+ "..."
  end.

Definition search_column (s : SessionState) : string :=
  match s with
  | AWAITING_LOCATION => "event_location"
  | AWAITING_CATEGORY => "event_category"
  end.

Definition search_query (s : SessionState) (text : string) : Query :=
  Supabase.from "event_details"
    |> Supabase.select "*"
    |> Supabase.ilike (search_column s) ("%" +:+ text +:+ "%")
    |> Supabase.eq "is_approved" (VBool true).

(** ** What a run shows *)

(** The read of [/ask]. *)
Definition ask_query (query : string) : Query :=
  Supabase.from "event_details"
    |> Supabase.select "*"
    |> Supabase.eq "is_approved" (VBool true)
    |> Supabase.textSearch "event_description" query
    |> Supabase.limit 5.

(** The event messages among [calls] show the rows [results] in order,
    one message each, up to the first message the platform refuses. *)
Definition shows (env : Env) (chatId : Z) (results : list Event)
    (calls : list Call) : Prop :=
  exists shown rest,
    results = shown ++ rest /\
    (rendered calls = map (event_call env chatId true) shown \/
     exists e rest',
       rest = e :: rest' /\
       rendered calls =
         map (event_call env chatId true) shown ++ [event_call env chatId false e]).

(** The reads of the list handlers. *)
Definition active_query (currentDate : Z) : Query :=
  Supabase.from "event_details"
    |> Supabase.select "*"
    |> Supabase.gt "event_enddate" (VTime currentDate)
    |> Supabase.eq "is_approved" (VBool true)
    |> Supabase.order "created_at" false.

Definition past_query (currentDate : Z) : Query :=
  Supabase.from "event_details"
    |> Supabase.select "*"
    |> Supabase.lt "event_enddate" (VTime currentDate)
    |> Supabase.eq "is_approved" (VBool true)
    |> Supabase.order "event_enddate" false
    |> Supabase.limit 5.

Definition popular_query : Query :=
  Supabase.from "event_details"
    |> Supabase.select "*"
    |> Supabase.eq "is_approved" (VBool true)
    |> Supabase.order "event_likes" false
    |> Supabase.limit 5.

(** A run issues no read but [q], shows rows of the answer to [q] in
    order, and shows all of them when the table answers and every
    message is delivered. *)
Definition presents (env : Env) (chatId : Z) (q : Query) (calls : list Call)
  : Prop :=
  shows env chatId (run_query (fts env) q (rows env)) calls /\
  (selects calls = [] \/ selects calls = [Select q]) /\
  ((forall n, deliver env n = true) -> fault env q = None ->
   rendered calls =
     map (event_call env chatId true) (run_query (fts env) q (rows env))).

(** ** The list operations *)

(** The rows an HTTP response carries. *)
Definition returned (r : Response) : list Event :=
  match body r with
  | JRows (Some events) => events
  | _ => []
  end.

(** Every event message among [calls] shows an approved row of the
    table. *)
Definition shows_approved (env : Env) (chatId : Z) (calls : list Call) : Prop :=
  forall c, In c calls -> is_event_call c = true ->
    exists e ok,
      In e (rows env) /\ is_approved e = true /\ c = event_call env chatId ok e.

Definition approved_row (env : Env) (e : Event) : Prop :=
  In e (rows env) /\ is_approved e = true.

(** The rows each uncapped operation is after. *)
Definition active_row (currentDate : Z) (e : Event) : bool :=
  Z.ltb currentDate (event_enddate e) && is_approved e.

Definition search_field (s : SessionState) (e : Event) : string :=
  match s with
  | AWAITING_LOCATION => event_location e
  | AWAITING_CATEGORY => event_category e
  end.

Definition searched_row (s : SessionState) (text : string) (e : Event) : bool :=
  ilike_match ("%" +:+ text +:+ "%") (search_field s e) && is_approved e.

(** ** The status route *)

Definition database_of (r : Response) : option DatabaseInfo :=
  match body r with
  | JStatus _ _ database => Some database
  | _ => None
  end.

(** The message as literal pieces of the template and texts put in
    between. *)
Inductive Piece :=
| Lit (s : string)
| Txt (s : string).

Definition piece_text (p : Piece) : string :=
  match p with Lit s => s | Txt s => s end.

Definition first_clear (n s : string) : bool :=
  match s with
  | String c _ => negb (occurs c n)
  | EmptyString => false
  end.

Fixpoint last_clear (n s : string) : bool :=
  match s with
  | EmptyString => false
  | String c EmptyString => negb (occurs c n)
  | String _ s' => last_clear n s'
  end.

(** No literal holds [n], every literal ends in a character that is
    not in [n], and every text is followed by a literal that begins
    with one. *)
Fixpoint framed (n : string) (ps : list Piece) : bool :=
  match ps with
  | [] => true
  | Lit s :: rest => last_clear n s && negb (includes n s) && framed n rest
  | Txt _ :: rest =>
      match rest with
      | [] => true
      | Lit l :: _ => first_clear n l && framed n rest
      | Txt _ :: _ => false
      end
  end.

Definition message_pieces (moment : string -> Z -> string) (event : Event)
  : list Piece :=
  [ Lit nl; Lit "<b>"; Txt (event_title event); Lit "</b>"; Lit nl;
    Lit nl;
    Lit "📝 <b>Description:</b> "; Txt (event_description event); Lit nl;
    Lit "📍 <b>Location:</b> "; Txt (event_location event); Lit nl;
    Lit "📅 <b>Start Date:</b> ";
      Txt (moment "MMMM Do YYYY, h:mm a" (event_startdate event)); Lit nl;
    Lit "⏳ <b>Duration:</b> "; Txt (show_Z (event_duration event));
      Lit " hours"; Lit nl;
    Lit "👥 <b>Team Size:</b> "; Txt (show_Z (team_size event)); Lit nl;
    Lit "💰 <b>Price:</b> "; Txt (price_text event); Lit nl;
    Lit nl;
    Lit "<b>Registration:</b>"; Lit nl;
    Lit "• Start: ";
      Txt (moment "MMMM Do YYYY" (event_registration_startdate event)); Lit nl;
    Lit "• End: ";
      Txt (moment "MMMM Do YYYY" (event_registration_enddate event)); Lit nl;
    Txt (register_line event); Lit nl;
    Lit nl;
    Lit "<b>Organizer Details:</b>"; Lit nl;
    Lit "• Name: "; Txt (organizer_name event); Lit nl;
    Lit "• Email: "; Txt (organizer_email event); Lit nl;
    Lit "• Contact: "; Txt (organizer_contact event); Lit nl;
    Lit nl;
    Lit "🏷️ <b>Category:</b> "; Txt (event_category event); Lit nl;
    Lit "❤️ <b>Likes:</b> "; Txt (show_Z (event_likes event)); Lit nl;
    Lit nl;
    Lit "🔗 <b>Event Link:</b> https://www.nexmeet.social/explore-events/";
      Txt (id event); Lit nl ].

(** The texts of an event that the message shows as they are. *)
Definition displayed_texts (moment : string -> Z -> string) (event : Event)
  : list string :=
  [ event_title event; event_description event; event_location event;
    moment "MMMM Do YYYY, h:mm a" (event_startdate event);
    moment "MMMM Do YYYY" (event_registration_startdate event);
    moment "MMMM Do YYYY" (event_registration_enddate event);
    default "" (redirection_link event);
    organizer_name event; organizer_email event; organizer_contact event;
    event_category event; id event ].

Definition with_price (price : Z) (e : Event) : Event :=
  {| id := id e; event_title := event_title e;
     event_description := event_description e;
     event_location := event_location e;
     event_startdate := event_startdate e; event_enddate := event_enddate e;
     event_duration := event_duration e; team_size := team_size e;
     isEventFree := isEventFree e; event_price := price;
     event_registration_startdate := event_registration_startdate e;
     event_registration_enddate := event_registration_enddate e;
     redirection_link := redirection_link e;
     organizer_name := organizer_name e; organizer_email := organizer_email e;
     organizer_contact := organizer_contact e;
     event_category := event_category e; event_likes := event_likes e;
     is_approved := is_approved e; created_at := created_at e |}.

(** ** Patterns *)



(** ** The main menu *)

(** A button of an inline keyboard. *)
Module Keyboard.
Record Button := { text : string; callback_data : string }.
End Keyboard.

(** [mainMenuKeyboard.reply_markup.inline_keyboard], row by row. *)
Definition mainMenuKeyboard : list (list Keyboard.Button) :=
  [ [ {| Keyboard.text := "🎯 Active Hackathons";
         Keyboard.callback_data := "active_hackathons" |};
      {| Keyboard.text := "📜 Past Events";
         Keyboard.callback_data := "past_events" |} ];
    [ {| Keyboard.text := "🌍 Search by Location";
         Keyboard.callback_data := "search_location" |};
      {| Keyboard.text := "🏷️ Search by Category";
         Keyboard.callback_data := "search_category" |} ];
    [ {| Keyboard.text := "📊 Most Popular Events";
         Keyboard.callback_data := "popular_events" |} ] ].

(** What pressing a button of the menu sends back. *)
Definition menu_actions : list string :=
  map Keyboard.callback_data (concat mainMenuKeyboard).

(** ** The commands [/start] and [/about] *)

(** The options of a message: [{ parse_mode }], [{ reply_markup: {
    inline_keyboard } }], or none of the two. *)
Record Options := {
  parse_mode : option string;
  inline_keyboard : option (list (list Keyboard.Button))
}.

(** [bot.sendMessage(chatId, text, options)].  The record of the calls
    keeps the parse mode of the options. *)
Definition sendMessage_with (chatId : Z) (text : string) (options : Options)
  : Async unit :=
  sendMessage chatId text (parse_mode options).

(** [mainMenuKeyboard], as the options of a message. *)
Definition mainMenuOptions : Options :=
  {| parse_mode := None; inline_keyboard := Some mainMenuKeyboard |}.

Definition welcomeMessage : string :=
  join [
    nl;
    "Welcome to the Event Bot! 🎉"; nl;
    nl;
    "I can help you discover amazing events and hackathons. Here's what you can do:"; nl;
    nl;
    "• Browse active hackathons"; nl;
    "• View past events"; nl;
    "• Search events by location"; nl;
    "• Filter by category"; nl;
    "• See popular events"; nl;
    nl;
    "Please select an option from the menu below:"; nl
  ].

(** [bot.onText(/\/start/, ...)]: [chatId] is [msg.chat.id]. *)
Definition on_start (chatId : Z) : Async unit :=
  try_catch
    (sendMessage_with chatId welcomeMessage mainMenuOptions)
    (fun _ =>
       console_error "Error sending welcome message:" ;;
       sendMessage chatId
         "Sorry, there was an error showing the menu. Please try /start again."
         None).

Definition aboutMessage : string :=
  join [
    nl;
    "🌟 *Welcome to NexMeet Bot* 🌟"; nl;
    nl;
    "*What's NexMeet?*"; nl;
    "NexMeet is your go-to platform for organizing and discovering college and social events. We make event planning fun and hassle-free!"; nl;
    nl;
    "🎯 *Our Mission*"; nl;
    dquote; "What's cooler than Networking? Nothing dude."; dquote; " We believe in bringing people together and creating meaningful connections."; nl;
    nl;
    "🤖 *Why Use NexMeet Bot?*"; nl;
    "• Instant access to events right in Telegram"; nl;
    "• Save time browsing - get event updates directly"; nl;
    "• AI-powered personalized recommendations"; nl;
    "• Real-time notifications for new events"; nl;
    nl;
    "✨ *Platform Features*:"; nl;
    "• Event Space Discovery"; nl;
    "• Multi-category Event Support"; nl;
    "• Networking Opportunities"; nl;
    "• Personal Growth Tracking"; nl;
    "• Registration & Ticket Management"; nl;
    "• Selective Invitation System"; nl;
    nl;
    "💡 *Bot Commands*:"; nl;
    "1. /start - Open main menu"; nl;
    "2. /about - Learn about NexMeet"; nl;
    "3. /ask - AI-powered event search"; nl;
    nl;
    "🤝 *Community Partners*:"; nl;
    "• Lamit Club"; nl;
    "• Delhi NCR DAO"; nl;
    "• DevSource"; nl;
    "• DevLearn"; nl;
    nl;
    "🌐 *Website*: www.nexmeet.social"; nl;
    nl;
    "Join our vibrant community of event organizers and attendees. Whether you're hosting a technical workshop or looking for creative meetups, NexMeet has you covered!"; nl
  ].

(** [bot.onText(/\/about/, ...)]: [chatId] is [msg.chat.id]. *)
Definition on_about (chatId : Z) : Async unit :=
  try_catch
    (sendMessage_with chatId aboutMessage
       {| parse_mode := Some "Markdown"; inline_keyboard := None |})
    (fun _ =>
       console_error "Error sending about message:" ;;
       sendMessage chatId
         "Sorry, there was an error showing the about information. Please try again."
         None).

(** A message of a command handler goes out with a parse mode only when
    it is the text of [/about], as Markdown. *)
Definition command_marked (c : Call) : Prop :=
  match c with
  | SendMessage _ text (Some mode) _ => mode = "Markdown" /\ text = aboutMessage
  | _ => True
  end.

(** A message that goes out without a parse mode. *)
Definition unmarked (c : Call) : Prop :=
  match c with
  | SendMessage _ _ (Some _) _ => False
  | _ => True
  end.

(** ** The handlers by name *)

(** The three lists of the menu. *)
Inductive ListOp := Active | Past | Popular.

Definition list_handler (op : ListOp) : Z -> Async unit :=
  match op with
  | Active => handleActiveHackathons
  | Past => handlePastEvents
  | Popular => handlePopularEvents
  end.

Definition list_query (op : ListOp) (currentDate : Z) : Query :=
  match op with
  | Active => active_query currentDate
  | Past => past_query currentDate
  | Popular => popular_query
  end.

Definition list_route (op : ListOp) : Env -> Response :=
  match op with
  | Active => get_active
  | Past => get_past
  | Popular => get_popular
  end.

(** The action of the menu that asks for the list, the status line the
    callback handler sends first, the line a handler sends for an empty
    answer and the label it logs a failure under. *)
Definition list_action (op : ListOp) : string :=
  match op with
  | Active => "active_hackathons"
  | Past => "past_events"
  | Popular => "popular_events"
  end.

Definition list_status_text (op : ListOp) : string :=
  match op with
  | Active => "🔍 Searching for active hackathons..."
  | Past => "🔍 Fetching past events..."
  | Popular => "🔍 Finding the most popular events..."
  end.

Definition list_empty_text (op : ListOp) : string :=
  match op with
  | Active => "No active hackathons found at the moment."
  | Past => "No past events found."
  | Popular => "No events found."
  end.

Definition list_error_label (op : ListOp) : string :=
  match op with
  | Active => "Error fetching active hackathons:"
  | Past => "Error fetching past events:"
  | Popular => "Error fetching popular events:"
  end.

(** The handlers of the chat front end that read the table. *)
Inductive Handler :=
| OfList (op : ListOp)
| OfCallbackQuery (queryId action : string)
| OfText (text : string)
| OfAsk (query : string).

Definition handler (h : Handler) (chatId : Z) : Async unit :=
  match h with
  | OfList op => list_handler op chatId
  | OfCallbackQuery queryId action => on_callback_query queryId chatId action
  | OfText text => on_text chatId text
  | OfAsk query => on_ask chatId query
  end.

(** The message each one sends from its catch block. *)
Definition apology (h : Handler) : string :=
  match h with
  | OfList _ => fetch_error_text
  | OfCallbackQuery _ _ => selection_error_text
  | OfText _ => request_error_text
  | OfAsk _ => ask_error_text
  end.

(** The line of the text handler that follows the read: the count of the
    rows found, or that there are none. *)
Definition found_text (s : SessionState) (text : string) (n : nat) : string :=
  match s with
  | AWAITING_LOCATION =>
      if (n =? 0)%nat then "📭 No events found in " +:+ text
      else "📍 Found " +:+ show_nat n +:+ " events in " +:+ text +:+ ":"
  | AWAITING_CATEGORY =>
      if (n =? 0)%nat then "📭 No events found in category " +:+ text
      else "🏷️ Found " +:+ show_nat n +:+ " events in category " +:+ text +:+ ":"
  end.

(** The same line of the [/ask] handler. *)
Definition ask_found_text (n : nat) : string :=
  if (n =? 0)%nat then "📭 I couldn't find any events matching your criteria."
  else "✨ Found " +:+ show_nat n +:+ " events that might interest you:".

(** ** What a handler keeps *)

(** Every run of [h] takes a session map to one that [R] relates to it. *)
Definition keeps {A} (R : relation (gmap Z Session)) (h : Async A) : Prop :=
  forall env w w' r, h env w = (w', r) -> R (userSessions w) (userSessions w').

(** Every run of [h] in [env] adds calls that satisfy [ok] to the calls
    made before, and nothing else. *)
Definition emits {A} (env : Env) (ok : Call -> Prop) (h : Async A) : Prop :=
  forall w w' r, h env w = (w', r) ->
    exists calls, log w' = calls ++ log w /\ Forall ok calls.

(** The session map with at most the entry of [chatId] removed, and
    with at most the entry of [chatId] written. *)
Definition cleared (chatId : Z) (m m' : gmap Z Session) : Prop :=
  m' = m \/ m' = delete chatId m.

Definition written (chatId : Z) (m m' : gmap Z Session) : Prop :=
  m' = m \/ exists s, m' = <[chatId := s]> m.

(** A call that concerns no chat but [chatId]. *)
Definition addressed_to (chatId : Z) (c : Call) : Prop :=
  match c with
  | SendMessage chat _ _ _ => chat = chatId
  | SessionsSet chat _ => chat = chatId
  | SessionsDelete chat => chat = chatId
  | _ => True
  end.

(** A read of the event table that asks for approved rows, in all their
    columns. *)
Definition approved_read (c : Call) : Prop :=
  match c with
  | Select q =>
      q_from q = "event_details" /\ q_select q = "*" /\
      In (FEq "is_approved" (VBool true)) (q_filters q)
  | _ => True
  end.

(** A message goes out as HTML when it shows an event and as plain text
    otherwise. *)
Definition well_marked (env : Env) (c : Call) : Prop :=
  match c with
  | SendMessage _ text (Some mode) _ =>
      mode = "HTML" /\ exists e, text = formatEventMessage (moment_format env) e
  | _ => True
  end.

(** The environment with another completion service. *)
Definition with_completion (f : string -> option string) (env : Env) : Env :=
  {| now := now env; rows := rows env; fault := fault env; fts := fts env;
     deliver := deliver env; completion := f; model_name := model_name env;
     node_env := node_env env; moment_format := moment_format env |}.

(** ** The runs with every message delivered *)

(** What a list handler sends after its read when the table answers and
    every message is delivered: a line for an empty answer, or the rows
    of the answer, one message each. *)
Definition list_shown (op : ListOp) (env : Env) (chatId : Z) : list Call :=
  match run_query (fts env) (list_query op (now env)) (rows env) with
  | [] => [SendMessage chatId (list_empty_text op) None true]
  | results => map (event_call env chatId true) results
  end.

(** The HTTP route that runs the search of a session state. *)
Definition search_route (s : SessionState) : string -> Env -> Response :=
  match s with
  | AWAITING_LOCATION => get_location
  | AWAITING_CATEGORY => get_category
  end.

(** ** The order of a list *)

(** [l] goes down by [key]: no row is followed by one with a greater
    key. *)
Definition descending (key : Event -> Z) (l : list Event) : Prop :=
  forall i j a b, (i < j)%nat -> l !! i = Some a -> l !! j = Some b ->
    key b <= key a.

Definition past_row (currentDate : Z) (e : Event) : bool :=
  Z.ltb (event_enddate e) currentDate && is_approved e.

(** ** The request limiter *)

(** A JavaScript value as the callbacks of the limiter meet it: what the
    JSON body parser hands over, or [undefined].  An object is the list
    of its own properties, each key once. *)
Module Js.
#[local] Set Warnings "-register-all".
Inductive value :=
| undefined
| null
| boolean (b : bool)
| number (q : QArith_base.Q)
| text (s : string)
| array (items : list value)
| object (fields : list (string * value)).

(** [!!v] *)
Definition truthy (v : value) : bool :=
  match v with
  | undefined | null => false
  | boolean b => b
  | number q => negb (QArith_base.Qeq_bool q (QArith_base.Qmake 0 1))
  | text s => negb (String.eqb s "")
  | array _ | object _ => true
  end.

(** [v?.k] for a key that no prototype defines: the own property [k] of
    an object, [undefined] for anything else. *)
Definition get (k : string) (v : value) : value :=
  match v with
  | object fields =>
      match List.find (fun kv => String.eqb (fst kv) k) fields with
      | Some kv => snd kv
      | None => undefined
      end
  | _ => undefined
  end.

(** [a || b] *)
Definition or (a b : value) : value := if truthy a then a else b.
End Js.

Module Limiter.
(** A request as the limiter reads it: [req.body] and [req.ip]. *)
Record Request := { body : Js.value; ip : Js.value }.

(** [req.body?.message?.chat?.id] *)
Definition chat_id (req : Request) : Js.value :=
  Js.get "id" (Js.get "chat" (Js.get "message" (body req))).

(** [keyGenerator: (req) => req.body?.message?.chat?.id || req.ip] *)
Definition keyGenerator (req : Request) : Js.value :=
  Js.or (chat_id req) (ip req).

(** [skip: (req) => !req.body?.message?.chat?.id && !req.ip] *)
Definition skip (req : Request) : bool :=
  negb (Js.truthy (chat_id req)) && negb (Js.truthy (ip req)).

(** [windowMs] and [max]. *)
Definition windowMs : Z := 24 * 60 * 60 * 1000.
Definition max : Z := 5.
End Limiter.

(** ** The pattern of the [/ask] command *)

(** A line terminator begins [s]: U+000A, U+000D, U+2028 or U+2029, the
    last two in the three bytes that stand for them in a text. *)
Definition at_line_terminator (s : string) : bool :=
  starts_with (String (ascii_of_nat 10) "") s ||
  starts_with (String (ascii_of_nat 13) "") s ||
  starts_with (String (ascii_of_nat 226) (String (ascii_of_nat 128)
                 (String (ascii_of_nat 168) ""))) s ||
  starts_with (String (ascii_of_nat 226) (String (ascii_of_nat 128)
                 (String (ascii_of_nat 169) ""))) s.

(** What [.+] takes at the beginning of [s]: all of it up to the first
    line terminator. *)
Fixpoint dot_run (s : string) : string :=
  match s with
  | EmptyString => EmptyString
  | String c s' => if at_line_terminator s then EmptyString else String c (dot_run s')
  end.

Fixpoint drop_chars (n : nat) (s : string) : string :=
  match n, s with
  | O, _ => s
  | S _, EmptyString => EmptyString
  | S n', String _ s' => drop_chars n' s'
  end.

(** The match of [/\/ask (.+)/] at the beginning of [s]: [match[1]]. *)
Definition ask_match_here (s : string) : option string :=
  if starts_with "/ask " s then
    match dot_run (drop_chars 5 s) with
    | EmptyString => None
    | q => Some q
    end
  else None.

(** [/\/ask (.+)/.exec(text)]: the first place of [text] where the
    pattern matches decides; [match[1]] is what [.+] takes there. *)
Fixpoint ask_match (text : string) : option string :=
  match ask_match_here text with
  | Some q => Some q
  | None =>
      match text with
      | EmptyString => None
      | String _ text' => ask_match text'
      end
  end.

(** No line terminator begins anywhere in [s]. *)
Fixpoint one_line (s : string) : bool :=
  match s with
  | EmptyString => true
  | String _ s' => negb (at_line_terminator s) && one_line s'
  end.

(** ** What a search text stands for *)






(** * Properties *)

(** ** Strings *)

Lemma append_cons c (a b : string) : String c a +:+ b = String c (a +:+ b).
Proof. reflexivity. Qed.

Lemma append_nil_r (a : string) : a +:+ "" = a.
Proof.
  induction a as [|x a IH]; [reflexivity|]. now rewrite append_cons, IH.
Qed.

Lemma append_assoc (a b c : string) : (a +:+ b) +:+ c = a +:+ (b +:+ c).
Proof.
  induction a as [|x a IH]; [reflexivity|]. now rewrite !append_cons, IH.
Qed.

Lemma join_app (l1 l2 : list string) : join (l1 ++ l2) = join l1 +:+ join l2.
Proof.
  unfold join. induction l1 as [|x l1 IH]; simpl; [reflexivity|].
  now rewrite IH, append_assoc.
Qed.

Lemma starts_with_app n b : starts_with n (n +:+ b) = true.
Proof.
  induction n as [|c n IH]; [reflexivity|].
  rewrite append_cons. simpl. now rewrite Ascii.eqb_refl, IH.
Qed.

Lemma includes_here n s : starts_with n s = true -> includes n s = true.
Proof. intros H. destruct s; simpl in *; now rewrite H. Qed.

Lemma includes_app_r n a b : includes n b = true -> includes n (a +:+ b) = true.
Proof.
  intros H. induction a as [|c a IH]; [exact H|].
  rewrite append_cons. simpl. rewrite IH. apply orb_true_r.
Qed.

Lemma includes_mid n a b : includes n (a +:+ n +:+ b) = true.
Proof. apply includes_app_r, includes_here, starts_with_app. Qed.

Lemma starts_with_split p s :
  starts_with p s = true -> exists b, s = p +:+ b.
Proof.
  revert s. induction p as [|c p IH]; intros s H; [now exists s|].
  destruct s as [|d s]; [discriminate|]. simpl in H.
  apply andb_true_iff in H as [Hc Hp]. apply Ascii.eqb_eq in Hc. subst d.
  destruct (IH s Hp) as [b ->]. now exists b.
Qed.

(** [includes n s] says that [n] is a substring of [s]. *)
Lemma includes_occurrence n s :
  includes n s = true <-> exists a b, s = a +:+ n +:+ b.
Proof.
  split.
  - induction s as [|d s IH]; simpl; intros H.
    + rewrite orb_false_r in H. apply starts_with_split in H as [b ->].
      now exists "", b.
    + apply orb_true_iff in H as [H | H].
      * apply starts_with_split in H as [b ->]. now exists "", b.
      * destruct (IH H) as (a & b & ->). now exists (String d a), b.
  - intros (a & b & ->). apply includes_mid.
Qed.

(** A character that is not in [n] cuts every occurrence of [n]. *)
Lemma starts_with_cut n a c b :
  occurs c n = false ->
  starts_with n (a +:+ String c b) = starts_with n a.
Proof.
  revert a. induction n as [|x n IH]; intros a Hc; [now destruct a|].
  simpl in Hc. apply orb_false_iff in Hc as [Hx Hn].
  destruct a as [|y a].
  - change ("" +:+ String c b) with (String c b). simpl.
    rewrite Ascii.eqb_sym, Hx. reflexivity.
  - rewrite append_cons. simpl. rewrite IH by exact Hn. reflexivity.
Qed.

Lemma includes_cut n a c b :
  n <> "" -> occurs c n = false ->
  includes n (a +:+ String c b) = includes n a || includes n b.
Proof.
  intros Hn Hc. induction a as [|y a IH].
  - change ("" +:+ String c b) with (String c b).
    change (includes n (String c b))
      with (starts_with n ("" +:+ String c b) || includes n b).
    rewrite (starts_with_cut n "" c b Hc).
    destruct n as [|x n]; [contradiction|]. reflexivity.
  - rewrite append_cons.
    change (includes n (String y (a +:+ String c b)))
      with (starts_with n (String y a +:+ String c b)
            || includes n (a +:+ String c b)).
    rewrite IH, starts_with_cut by exact Hc.
    simpl. now rewrite orb_assoc.
Qed.

Lemma includes_nil n : n <> "" -> includes n "" = false.
Proof. destruct n; [contradiction | reflexivity]. Qed.

Lemma includes_without_lead x n s :
  occurs x s = false -> includes (String x n) s = false.
Proof.
  induction s as [|d s IH]; [reflexivity|].
  simpl. intros H. apply orb_false_iff in H as [Hd Hs].
  now rewrite Hd, IH.
Qed.

(** ** The table *)

Lemma in_firstn {A} (x : A) n l : In x (firstn n l) -> In x l.
Proof.
  revert l. induction n as [|n IH]; intros [|y l]; simpl; try tauto.
  intros [->|H]; [now left | right; now apply IH].
Qed.

Section TableFacts.
Variable fts : string -> string -> bool.

Lemma insert_sorted_perm c asc e l :
  Permutation (insert_sorted c asc e l) (e :: l).
Proof.
  induction l as [|x l IH]; simpl; [reflexivity|].
  destruct (before c asc e x); [reflexivity|].
  rewrite IH. apply perm_swap.
Qed.

Lemma sort_rows_perm c asc l : Permutation (sort_rows c asc l) l.
Proof.
  induction l as [|x l IH]; simpl; [reflexivity|].
  rewrite insert_sorted_perm. now apply perm_skip.
Qed.

(** Whatever a query returns is a row of the table that passes every
    filter of the query. *)
Lemma run_query_sound q rows e :
  In e (run_query fts q rows) ->
  In e rows /\ matches fts (q_filters q) e = true.
Proof.
  unfold run_query. intros H.
  assert (Hord : In e (match q_order q with
                       | Some (c, asc) =>
                           sort_rows c asc (List.filter (matches fts (q_filters q)) rows)
                       | None => List.filter (matches fts (q_filters q)) rows
                       end)).
  { destruct (q_limit q); [eapply in_firstn; exact H | exact H]. }
  apply filter_In.
  destruct (q_order q) as [[c asc]|]; [|exact Hord].
  eapply Permutation_in; [apply sort_rows_perm | exact Hord].
Qed.

(** A limit caps the answer. *)
Lemma run_query_limit q rows n :
  q_limit q = Some n -> (length (run_query fts q rows) <= n)%nat.
Proof.
  unfold run_query. intros ->. apply firstn_le_length.
Qed.

(** Without a limit the answer holds every row that passes the
    filters, each as often as the table holds it. *)
Lemma run_query_complete q rows :
  q_limit q = None ->
  Permutation (run_query fts q rows)
    (List.filter (matches fts (q_filters q)) rows).
Proof.
  unfold run_query. intros ->.
  destruct (q_order q) as [[c asc]|]; [apply sort_rows_perm | reflexivity].
Qed.

Lemma run_query_plain q rows :
  q_limit q = None -> q_order q = None ->
  run_query fts q rows = List.filter (matches fts (q_filters q)) rows.
Proof. unfold run_query. now intros -> ->. Qed.
End TableFacts.

Lemma approved_of_matches fts q e :
  In (FEq "is_approved" (VBool true)) (q_filters q) ->
  matches fts (q_filters q) e = true ->
  is_approved e = true.
Proof.
  intros Hin Hm. unfold matches in Hm.
  rewrite forallb_forall in Hm. specialize (Hm _ Hin). simpl in Hm.
  destruct (is_approved e); [reflexivity | discriminate].
Qed.

Lemma run_query_approved fts q rows e :
  In (FEq "is_approved" (VBool true)) (q_filters q) ->
  In e (run_query fts q rows) ->
  In e rows /\ is_approved e = true.
Proof.
  intros Hf Hin. apply run_query_sound in Hin as [Hrow Hm].
  split; [exact Hrow | exact (approved_of_matches _ _ _ Hf Hm)].
Qed.

Lemma matches_active fts currentDate e :
  matches fts (q_filters (active_query currentDate)) e = active_row currentDate e.
Proof.
  unfold active_row. simpl.
  destruct (is_approved e); simpl; now rewrite ?andb_true_r, ?andb_false_r.
Qed.

Lemma matches_search fts s text e :
  matches fts (q_filters (search_query s text)) e = searched_row s text e.
Proof.
  unfold searched_row. destruct s; simpl;
    destruct (is_approved e); simpl; now rewrite ?andb_true_r, ?andb_false_r.
Qed.

Lemma active_answer fts currentDate rows :
  Permutation (run_query fts (active_query currentDate) rows)
    (List.filter (active_row currentDate) rows).
Proof.
  rewrite run_query_complete by reflexivity.
  erewrite filter_ext; [reflexivity|]. intros e. apply matches_active.
Qed.

Lemma search_answer fts s text rows :
  run_query fts (search_query s text) rows =
  List.filter (searched_row s text) rows.
Proof.
  rewrite run_query_plain by reflexivity.
  apply filter_ext. intros e. apply matches_search.
Qed.

(** ** Patterns *)






Lemma lowercase_app a b : lowercase (a +:+ b) = lowercase a +:+ lowercase b.
Proof.
  induction a as [|c a IH]; [reflexivity|].
  rewrite append_cons. simpl. now rewrite IH, append_cons.
Qed.







(** ** Handlers *)

Lemma bind_normal {A B} (c : Async A) (k : A -> Async B) env w w' b :
  bind c k env w = (w', Normal b) ->
  exists w1 a, c env w = (w1, Normal a) /\ k a env w1 = (w', Normal b).
Proof.
  unfold bind. destruct (c env w) as [w1 [a|msg]]; [eauto | discriminate].
Qed.

(** The loop over the events sends them in order and stops at the first
    send that fails; it leaves the session map alone. *)
Lemma for_each_send_event env chatId events w w' r :
  for_each events (send_event chatId) env w = (w', r) ->
  exists shown rest,
    events = shown ++ rest /\
    userSessions w' = userSessions w /\
    (r = Normal tt /\ rest = [] /\
     log w' = rev (map (event_call env chatId true) shown) ++ log w
     \/
     exists e rest',
       rest = e :: rest' /\ r = Throw "ETELEGRAM" /\
       log w' = event_call env chatId false e ::
                rev (map (event_call env chatId true) shown) ++ log w /\
       exists n, deliver env n = false).
Proof.
  revert w. induction events as [|e events IH]; intros w; simpl.
  - intros [= <- <-]. exists [], []. simpl.
    split; [reflexivity|]. split; [reflexivity|]. left. auto.
  - unfold bind, send_event at 1, sendMessage.
    destruct (deliver env (length (log w))) eqn:Hd.
    + intros Hrun. apply IH in Hrun.
      destruct Hrun as (shown & rest & Heq & Hs & Hcase).
      exists (e :: shown), rest. split; [simpl; now rewrite Heq|].
      split; [exact Hs|].
      destruct Hcase
        as [(Hr & Hrest & Hl) | (e' & rest' & Hrest & Hr & Hl & Hfail)].
      * left. split; [exact Hr|]. split; [exact Hrest|].
        rewrite Hl. simpl. rewrite <- app_assoc. reflexivity.
      * right. exists e', rest'. split; [exact Hrest|]. split; [exact Hr|].
        split; [|exact Hfail].
        rewrite Hl. simpl. rewrite <- app_assoc. reflexivity.
    + intros [= <- <-]. exists [], (e :: events). simpl.
      split; [reflexivity|]. split; [reflexivity|].
      right. exists e, events. eauto 6.
Qed.

Lemma rendered_app a b : rendered (a ++ b) = rendered a ++ rendered b.
Proof. apply List.filter_app. Qed.

Lemma rendered_event_calls env chatId ok l :
  rendered (map (event_call env chatId ok) l) = map (event_call env chatId ok) l.
Proof. induction l as [|e l IH]; simpl; [reflexivity | now rewrite IH]. Qed.

Lemma selects_event_calls env chatId ok l :
  selects (map (event_call env chatId ok) l) = [].
Proof. induction l as [|e l IH]; simpl; [reflexivity | exact IH]. Qed.

Lemma chats_event_calls env chatId ok l :
  chats (map (event_call env chatId ok) l) = [].
Proof. induction l as [|e l IH]; simpl; [reflexivity | exact IH]. Qed.

Lemma select_in_selects c calls :
  In c calls -> is_select c = true -> In c (selects calls).
Proof. intros Hin Hc. apply filter_In. now split. Qed.

Lemma shows_nothing env chatId results calls :
  rendered calls = [] -> shows env chatId results calls.
Proof. intros H. exists [], results. split; [reflexivity | now left]. Qed.

Lemma shows_all env chatId results calls :
  rendered calls = map (event_call env chatId true) results ->
  shows env chatId results calls.
Proof. intros H. exists results, []. split; [now rewrite app_nil_r | now left]. Qed.

Lemma shows_until env chatId results shown e rest' calls :
  results = shown ++ e :: rest' ->
  rendered calls =
    map (event_call env chatId true) shown ++ [event_call env chatId false e] ->
  shows env chatId results calls.
Proof. intros H1 H2. exists shown, (e :: rest'). split; [exact H1|]. right. eauto. Qed.

Lemma shows_length env chatId results calls :
  shows env chatId results calls ->
  (length (rendered calls) <= length results)%nat.
Proof.
  intros (shown & rest & -> & [-> | (e & rest' & -> & ->)]);
    repeat (rewrite ?length_app, ?length_map; simpl); lia.
Qed.

Lemma shows_member env chatId results calls c :
  shows env chatId results calls ->
  In c (rendered calls) ->
  exists e ok, In e results /\ c = event_call env chatId ok e.
Proof.
  intros (shown & rest & -> & [-> | (e & rest' & -> & ->)]) Hin.
  - apply in_map_iff in Hin as (e & <- & Hin).
    exists e, true. split; [apply in_or_app; now left | reflexivity].
  - apply in_app_or in Hin as [Hin | [<- | []]].
    + apply in_map_iff in Hin as (e0 & <- & Hin).
      exists e0, true. split; [apply in_or_app; now left | reflexivity].
    + exists e, false. split; [apply in_or_app; right; now left | reflexivity].
Qed.

Lemma presents_capped env chatId q calls n :
  presents env chatId q calls -> q_limit q = Some n ->
  (length (rendered calls) <= n)%nat.
Proof.
  intros (Hshows & _) Hl. apply shows_length in Hshows.
  pose proof (run_query_limit (fts env) q (rows env) n Hl). lia.
Qed.

Lemma presents_approved env chatId q calls :
  presents env chatId q calls ->
  In (FEq "is_approved" (VBool true)) (q_filters q) ->
  shows_approved env chatId calls.
Proof.
  intros (Hshows & _) Hf c Hin Hc.
  assert (Hr : In c (rendered calls)) by (apply filter_In; now split).
  destruct (shows_member _ _ _ _ _ Hshows Hr) as (e & ok & He & ->).
  exists e, ok. destruct (run_query_approved _ _ _ _ Hf He). auto.
Qed.

Lemma presents_select env chatId q calls q' :
  presents env chatId q calls -> In (Select q') calls -> q' = q.
Proof.
  intros (_ & Hsel & _) Hin.
  apply select_in_selects in Hin; [|reflexivity].
  destruct Hsel as [Hsel | Hsel]; rewrite Hsel in Hin; simpl in Hin.
  - contradiction.
  - destruct Hin as [[= <-] | []]. reflexivity.
Qed.

Lemma presents_run {A} (h : Async A) env chatId q :
  (forall (m : gmap Z Session) w' r,
     h env {| userSessions := m; log := [] |} = (w', r) ->
     presents env chatId q (rev (log w'))) ->
  forall m, presents env chatId q (calls_of h env m).
Proof.
  intros H m. unfold calls_of, run.
  destruct (h env {| userSessions := m; log := [] |}) as [w' r] eqn:Hrun.
  simpl. exact (H m w' r Hrun).
Qed.

(** *** Symbolic runs

    Each handler is run by cases on what the collaborators answer: the
    outcome of each call to the chat platform, the answer of the table,
    and how far the loop over the events gets. *)

(** Pieces of a run: the calls of the loop, in the order they are made,
    between what came before and the catch block. *)
Ltac loop_calls Hl :=
  rewrite Hl; simpl;
  repeat (rewrite ?rev_app_distr, ?rev_involutive; simpl);
  unfold rendered, selects, chats;
  repeat (rewrite ?List.filter_app; simpl);
  fold rendered selects chats;
  repeat rewrite ?rendered_event_calls, ?selects_event_calls, ?chats_event_calls;
  simpl; rewrite ?app_nil_r.

Ltac solve_rendered :=
  simpl; fold rendered;
  repeat (rewrite ?rendered_app, ?rendered_event_calls; simpl; fold rendered);
  rewrite ?app_nil_r; reflexivity.

Ltac refuted_delivery :=
  match goal with
  | Hall : forall n, deliver ?env n = true, Hd : deliver ?env ?k = false |- _ =>
      rewrite Hall in Hd; discriminate Hd
  | Hup : ?x = None, Hdown : ?x = Some _ |- _ =>
      rewrite Hup in Hdown; discriminate Hdown
  end.

(** A run that never enters the loop. *)
Ltac leaf :=
  intros [= <- <-]; unfold presents; simpl;
  repeat split; auto using shows_nothing;
  try (intros;
       first [ refuted_delivery
             | match goal with
               | H : run_query _ _ _ = [] |- _ => rewrite H; reflexivity
               end ]).

Ltac deliveries :=
  repeat match goal with
         | |- context [deliver ?env ?n] =>
             let Hd := fresh "Hd" in destruct (deliver env n) eqn:Hd; simpl
         end.

Ltac enter_loop e events Hloop :=
  match goal with
  | |- context [(send_event ?c e ;; for_each events (send_event ?c)) ?env ?w] =>
      change ((send_event c e ;; for_each events (send_event c)) env w)
        with (for_each (e :: events) (send_event c) env w);
      let w1 := fresh "w1" in
      let r1 := fresh "r1" in
      destruct (for_each (e :: events) (send_event c) env w) as [w1 r1] eqn:Hloop
  end.

(** A run that enters the loop: either every event is shown, or the
    loop stops at a message the platform refuses and the catch blocks
    run. *)
Ltac finish_loop Hq Hloop :=
  let shown := fresh "shown" in
  let rest := fresh "rest" in
  let Heq := fresh "Heq" in
  let Hs := fresh "Hs" in
  let Hl := fresh "Hl" in
  let e' := fresh "e'" in
  let rest' := fresh "rest'" in
  let n := fresh "n" in
  let Hn := fresh "Hn" in
  apply for_each_send_event in Hloop
    as (shown & rest & Heq & Hs &
        [(-> & -> & Hl) | (e' & rest' & -> & -> & Hl & n & Hn)]);
  [ simpl; deliveries; intros [= <- <-]; unfold presents; simpl; loop_calls Hl;
    rewrite app_nil_r in Heq; subst shown; rewrite Hq;
    (split; [apply shows_all; solve_rendered|]);
    (split; [now right|]);
    first [ reflexivity | intros; refuted_delivery ]
  | simpl; deliveries; intros [= <- <-]; unfold presents; simpl; loop_calls Hl;
    rewrite Hq;
    (split; [eapply shows_until; [exact Heq | solve_rendered]|]);
    (split; [now right|]); intros; refuted_delivery ].

Ltac run_list_handler q :=
  unfold try_catch, bind, date_now, answerCallbackQuery, sendMessage, supabase,
    rows_or_throw, throw, ret, console_error, sessions_delete;
  simpl; fold q; unfold answer;
  let Hfault := fresh "Hfault" in
  let Hq := fresh "Hq" in
  let Hloop := fresh "Hloop" in
  let e := fresh "e" in
  let events := fresh "events" in
  destruct (fault _ _) as [?|] eqn:Hfault; simpl; [deliveries; leaf|];
  destruct (run_query _ _ _) as [|e events] eqn:Hq; simpl; [deliveries; leaf|];
  deliveries; try leaf;
  enter_loop e events Hloop; finish_loop Hq Hloop.

Lemma handleActiveHackathons_run env chatId (m : gmap Z Session) w' r :
  handleActiveHackathons chatId env {| userSessions := m; log := [] |} = (w', r) ->
  presents env chatId (active_query (now env)) (rev (log w')).
Proof.
  unfold handleActiveHackathons. run_list_handler (active_query (now env)).
Qed.

Lemma handlePastEvents_run env chatId (m : gmap Z Session) w' r :
  handlePastEvents chatId env {| userSessions := m; log := [] |} = (w', r) ->
  presents env chatId (past_query (now env)) (rev (log w')).
Proof.
  unfold handlePastEvents. run_list_handler (past_query (now env)).
Qed.

Lemma handlePopularEvents_run env chatId (m : gmap Z Session) w' r :
  handlePopularEvents chatId env {| userSessions := m; log := [] |} = (w', r) ->
  presents env chatId popular_query (rev (log w')).
Proof.
  unfold handlePopularEvents. run_list_handler popular_query.
Qed.

Lemma on_text_run env chatId text (m : gmap Z Session) s w' r :
  m !! chatId = Some {| state := s |} ->
  on_text chatId text env {| userSessions := m; log := [] |} = (w', r) ->
  presents env chatId (search_query s text) (rev (log w')).
Proof.
  intros Hpending.
  unfold on_text, bind at 1, sessions_get at 1. simpl. rewrite Hpending.
  destruct s; simpl.
  - change (Supabase.eq "is_approved" (VBool true)
             (Supabase.ilike "event_location" ("%" +:+ text +:+ "%")
                (Supabase.select "*" (Supabase.from "event_details"))))
      with (search_query AWAITING_LOCATION text).
    unfold try_catch, bind at 1, sendMessage at 1. simpl.
    destruct (deliver env 0) eqn:Hd0; simpl;
      [|unfold bind, console_error, sendMessage, sessions_delete; simpl;
        deliveries; leaf].
    run_list_handler (search_query AWAITING_LOCATION text).
  - change (Supabase.eq "is_approved" (VBool true)
             (Supabase.ilike "event_category" ("%" +:+ text +:+ "%")
                (Supabase.select "*" (Supabase.from "event_details"))))
      with (search_query AWAITING_CATEGORY text).
    unfold try_catch, bind at 1, sendMessage at 1. simpl.
    destruct (deliver env 0) eqn:Hd0; simpl;
      [|unfold bind, console_error, sendMessage, sessions_delete; simpl;
        deliveries; leaf].
    run_list_handler (search_query AWAITING_CATEGORY text).
Qed.

(** The same handlers as the callback handler calls them, after the
    acknowledgement and the status line, and inside its own catch
    block. *)
Lemma callback_active_run env queryId chatId (m : gmap Z Session) w' r :
  on_callback_query queryId chatId "active_hackathons" env
    {| userSessions := m; log := [] |} = (w', r) ->
  presents env chatId (active_query (now env)) (rev (log w')).
Proof.
  unfold on_callback_query, handleActiveHackathons.
  run_list_handler (active_query (now env)).
Qed.

Lemma callback_past_run env queryId chatId (m : gmap Z Session) w' r :
  on_callback_query queryId chatId "past_events" env
    {| userSessions := m; log := [] |} = (w', r) ->
  presents env chatId (past_query (now env)) (rev (log w')).
Proof.
  unfold on_callback_query, handlePastEvents.
  run_list_handler (past_query (now env)).
Qed.

Lemma callback_popular_run env queryId chatId (m : gmap Z Session) w' r :
  on_callback_query queryId chatId "popular_events" env
    {| userSessions := m; log := [] |} = (w', r) ->
  presents env chatId popular_query (rev (log w')).
Proof.
  unfold on_callback_query, handlePopularEvents.
  run_list_handler popular_query.
Qed.

(** Every run of the [/ask] handler, by cases on what the collaborators
    answer. *)
Lemma on_ask_run env chatId query (m : gmap Z Session) w' r :
  on_ask chatId query env {| userSessions := m; log := [] |} = (w', r) ->
  userSessions w' = m /\
  shows env chatId (run_query (fts env) (ask_query query) (rows env)) (rev (log w')) /\
  (selects (rev (log w')) = [] \/ selects (rev (log w')) = [Select (ask_query query)]) /\
  (chats (rev (log w')) = [] \/
   chats (rev (log w')) = [MistralChat (model_name env) (ask_prompt query)]) /\
  (deliver env 0%nat = true -> completion env (ask_prompt query) <> None ->
   deliver env 2%nat = true ->
   selects (rev (log w')) = [Select (ask_query query)] /\
   chats (rev (log w')) = [MistralChat (model_name env) (ask_prompt query)]).
Proof.
  unfold on_ask, try_catch.
  unfold bind, sendMessage, mistral_chat, supabase, rows_or_throw, throw, ret, console_error.
  simpl. fold (ask_query query).
  destruct (deliver env 0) eqn:Hd0; simpl.
  2:{ intros [= <- <-]. simpl. repeat split; auto using shows_nothing; congruence. }
  destruct (completion env (ask_prompt query)) as [reply|] eqn:Hai; simpl.
  2:{ intros [= <- <-]. simpl. repeat split; auto using shows_nothing; congruence. }
  destruct (deliver env 2) eqn:Hd2; simpl.
  2:{ intros [= <- <-]. simpl. repeat split; auto using shows_nothing; congruence. }
  unfold answer.
  destruct (fault env _) as [msg|]; simpl.
  { intros [= <- <-]. simpl. repeat split; auto using shows_nothing. }
  destruct (run_query _ _ _) as [|e events] eqn:Hq; simpl.
  { destruct (deliver env 4); simpl; intros [= <- <-]; simpl;
      repeat split; auto using shows_nothing. }
  destruct (deliver env 4); simpl.
  2:{ intros [= <- <-]. simpl. repeat split; auto using shows_nothing. }
  match goal with
  | |- context [(send_event chatId e ;; for_each events (send_event chatId)) env ?w] =>
      change ((send_event chatId e ;; for_each events (send_event chatId)) env w)
        with (for_each (e :: events) (send_event chatId) env w);
      destruct (for_each (e :: events) (send_event chatId) env w) as [w1 r1] eqn:Hloop
  end.
  apply for_each_send_event in Hloop
    as (shown & rest & Heq & Hs &
        [(-> & -> & Hl) | (e' & rest' & -> & -> & Hl & _)]).
  - intros [= <- <-]. split; [exact Hs|]. loop_calls Hl.
    split.
    { exists shown, []. split; [exact Heq|]. left. simpl.
      apply rendered_event_calls. }
    repeat split; auto.
  - intros Hrun. simpl in Hrun.
    injection Hrun as <- <-. simpl. split; [exact Hs|]. loop_calls Hl.
    split.
    { exists shown, (e' :: rest'). split; [exact Heq|]. right.
      exists e', rest'. split; [reflexivity|]. simpl.
      rewrite !rendered_app, rendered_event_calls. simpl.
      now rewrite !app_nil_r. }
    repeat split; auto.
Qed.

(** ** The session state machine *)

Lemma on_text_idle env chatId text w :
  userSessions w !! chatId = None ->
  on_text chatId text env w = (w, Normal tt).
Proof.
  intros Hnone. unfold on_text, bind, sessions_get. rewrite Hnone. reflexivity.
Qed.

(** C8.  A text message from a chat with no pending entry makes no call
    at all, so no read of the table, and leaves the session map as it
    was. *)
Theorem text_without_session_is_ignored env (m : gmap Z Session) chatId text :
  m !! chatId = None ->
  run (on_text chatId text) env m = (m, [], Normal tt).
Proof.
  intros Hnone. unfold run. rewrite on_text_idle by exact Hnone. reflexivity.
Qed.

Lemma text_without_session_is_ignored_witness :
  run (on_text 7 "Pune") env_up {[ 8 := {| state := AWAITING_CATEGORY |} ]}
  = ({[ 8 := {| state := AWAITING_CATEGORY |} ]}, [], Normal tt).
Proof.
  apply text_without_session_is_ignored. vm_compute. reflexivity.
Defined.

(** A map holds one entry under a key it was just given. *)
Lemma one_entry_after_insert (m : gmap Z Session) k s :
  length (filter (fun kv : Z * Session => kv.1 = k) (map_to_list (<[k := s]> m)))
  = 1%nat.
Proof.
  rewrite <- insert_delete_eq.
  rewrite map_to_list_insert by apply lookup_delete_eq.
  rewrite filter_cons_True by reflexivity. simpl. f_equal.
  destruct (filter _ _) as [|[k' s'] others] eqn:Hf; [reflexivity|exfalso].
  assert (Hin : (k', s') ∈ (k', s') :: others) by left.
  rewrite <- Hf in Hin. apply list_elem_of_filter in Hin as [Hk Hin].
  simpl in Hk. subst k'. apply elem_of_map_to_list in Hin.
  rewrite lookup_delete_eq in Hin. discriminate.
Qed.

(** A selection that is not acknowledged changes nothing. *)
Lemma select_unacknowledged env queryId chatId action (m : gmap Z Session) :
  deliver env 0%nat = false ->
  sessions_after (on_callback_query queryId chatId action) env m = m.
Proof.
  intros Hack.
  unfold sessions_after, run, on_callback_query, try_catch, bind,
    answerCallbackQuery, sendMessage, console_error.
  simpl. rewrite Hack. simpl.
  destruct (deliver env 2); reflexivity.
Qed.

Lemma select_location_sets env queryId chatId (m : gmap Z Session) :
  deliver env 0%nat = true ->
  sessions_after (on_callback_query queryId chatId "search_location") env m
  = <[chatId := {| state := AWAITING_LOCATION |}]> m.
Proof.
  intros Hack.
  unfold sessions_after, run, on_callback_query, try_catch, bind,
    answerCallbackQuery, sessions_set, sendMessage, console_error.
  simpl. rewrite Hack. simpl.
  destruct (deliver env 2); simpl; [reflexivity|].
  destruct (deliver env 4); reflexivity.
Qed.

Lemma select_category_sets env queryId chatId (m : gmap Z Session) :
  deliver env 0%nat = true ->
  sessions_after (on_callback_query queryId chatId "search_category") env m
  = <[chatId := {| state := AWAITING_CATEGORY |}]> m.
Proof.
  intros Hack.
  unfold sessions_after, run, on_callback_query, try_catch, bind,
    answerCallbackQuery, sessions_set, sendMessage, console_error.
  simpl. rewrite Hack. simpl.
  destruct (deliver env 2); simpl; [reflexivity|].
  destruct (deliver env 4); reflexivity.
Qed.

(** C3, as the handler has it.  After a search-by-location selection
    and then a search-by-category selection that the handler
    acknowledges, the map holds one entry for the chat and it says
    AWAITING_CATEGORY, whatever the map held for the chat before and
    whether or not the prompts are delivered; every acknowledged
    selection overwrites the entry of its chat and leaves the entries of
    the other chats alone. *)
Theorem reselection_overwrites env1 env2 q1 q2 chatId (m : gmap Z Session) :
  deliver env2 0%nat = true ->
  let m1 := sessions_after (on_callback_query q1 chatId "search_location") env1 m in
  let m2 := sessions_after (on_callback_query q2 chatId "search_category") env2 m1 in
  m2 = <[chatId := {| state := AWAITING_CATEGORY |}]> m /\
  m2 !! chatId = Some {| state := AWAITING_CATEGORY |} /\
  length (filter (fun kv : Z * Session => kv.1 = chatId) (map_to_list m2)) = 1%nat /\
  (forall other, other <> chatId -> m2 !! other = m !! other) /\
  (deliver env1 0%nat = true ->
   m1 = <[chatId := {| state := AWAITING_LOCATION |}]> m).
Proof.
  intros Hack2 m1 m2.
  assert (Hm1 : m1 = m \/ m1 = <[chatId := {| state := AWAITING_LOCATION |}]> m).
  { subst m1. destruct (deliver env1 0%nat) eqn:Hack1.
    - right. now apply select_location_sets.
    - left. now apply select_unacknowledged. }
  assert (Hm2 : m2 = <[chatId := {| state := AWAITING_CATEGORY |}]> m).
  { subst m2. rewrite (select_category_sets env2 q2 chatId _ Hack2).
    destruct Hm1 as [-> | ->]; [reflexivity | apply insert_insert_eq]. }
  split; [exact Hm2|]. rewrite Hm2.
  split; [apply lookup_insert_eq|].
  split; [apply one_entry_after_insert|].
  split; [intros other Hother; now apply lookup_insert_ne|].
  intros Hack1. subst m1. now apply select_location_sets.
Qed.

Lemma reselection_overwrites_witness :
  let m1 := sessions_after (on_callback_query "cb1" 42 "search_location") env_up
              {[ 42 := {| state := AWAITING_CATEGORY |} ]} in
  let m2 := sessions_after (on_callback_query "cb2" 42 "search_category") env_up m1 in
  m2 = <[42 := {| state := AWAITING_CATEGORY |}]>
         {[ 42 := {| state := AWAITING_CATEGORY |} ]} /\
  m2 !! 42 = Some {| state := AWAITING_CATEGORY |} /\
  length (filter (fun kv : Z * Session => kv.1 = 42) (map_to_list m2)) = 1%nat /\
  (forall other, other <> 42 ->
     m2 !! other = ({[ 42 := {| state := AWAITING_CATEGORY |} ]} : gmap Z Session) !! other) /\
  (deliver env_up 0%nat = true ->
   m1 = <[42 := {| state := AWAITING_LOCATION |}]>
          {[ 42 := {| state := AWAITING_CATEGORY |} ]}).
Proof.
  apply (reselection_overwrites env_up env_up "cb1" "cb2" 42). reflexivity.
Defined.

(** C3, as the claim has it, fails: the chat platform refuses the
    acknowledgement of the second selection, the handler goes to its
    catch block before the switch, and the entry still says
    AWAITING_LOCATION. *)
Lemma reselection_unacknowledged_keeps_location :
  let m1 := sessions_after (on_callback_query "cb1" 42 "search_location") env_up ∅ in
  let m2 := sessions_after (on_callback_query "cb2" 42 "search_category")
              env_first_refused m1 in
  m2 !! 42 = Some {| state := AWAITING_LOCATION |} /\
  m2 !! 42 <> Some {| state := AWAITING_CATEGORY |}.
Proof. vm_compute. split; [reflexivity | discriminate]. Qed.

(** C1.  The handler breaks the claim at this input.  Chat 42 selects
    the search by location and then sends the text [Pune]; the table
    refuses the read and the chat platform refuses the apology that the
    catch block sends.  The catch block awaits that send before it
    deletes the entry, so the delete is never reached: the handler ends
    in a rejection and the entry still says AWAITING_LOCATION. *)
Lemma text_after_location_can_strand :
  let m1 := sessions_after (on_callback_query "cb" 42 "search_location") env_up ∅ in
  fault env_report_lost
    (Supabase.from "event_details"
       |> Supabase.select "*"
       |> Supabase.ilike "event_location" ("%" +:+ "Pune" +:+ "%")
       |> Supabase.eq "is_approved" (VBool true)) = Some "fetch failed" /\
  sessions_after (on_text 42 "Pune") env_report_lost m1 !! 42
  = Some {| state := AWAITING_LOCATION |} /\
  sessions_after (on_text 42 "Pune") env_report_lost m1 !! 42 <> None /\
  m1 !! 42 = Some {| state := AWAITING_LOCATION |} /\
  calls_of (on_text 42 "Pune") env_report_lost m1 =
    [ SendMessage 42 (searching_text AWAITING_LOCATION "Pune") None true;
      Select (search_query AWAITING_LOCATION "Pune");
      ConsoleError "Error processing text message:";
      SendMessage 42 request_error_text None false ] /\
  (run (on_text 42 "Pune") env_report_lost m1).2 = Throw "ETELEGRAM".
Proof.
  vm_compute. split; [reflexivity|]. split; [reflexivity|].
  split; [discriminate|]. repeat split; reflexivity.
Qed.

(** C2.  The handler breaks the claim at this input.  Chat 42 has a
    search by location pending and sends the text [Pune]; the table
    refuses the read and every message is delivered.  The catch block
    sends the failure report and deletes the entry after it: in the
    calls of the run the delete does not come before the report, it
    comes after it. *)
Lemma text_failure_delete_not_first :
  let calls := calls_of (on_text 42 "Pune") env_store_down
                 {[ 42 := {| state := AWAITING_LOCATION |} ]} in
  fault env_store_down (search_query AWAITING_LOCATION "Pune") = Some "fetch failed" /\
  In (Select (search_query AWAITING_LOCATION "Pune")) calls /\
  ~ precedes (SessionsDelete 42)
      (SendMessage 42 request_error_text None true) calls /\
  precedes (SendMessage 42 request_error_text None true)
    (SessionsDelete 42) calls /\
  calls =
    [ SendMessage 42 (searching_text AWAITING_LOCATION "Pune") None true;
      Select (search_query AWAITING_LOCATION "Pune");
      ConsoleError "Error processing text message:";
      SendMessage 42 request_error_text None true;
      SessionsDelete 42 ].
Proof.
  intros calls.
  assert (Hcalls : calls =
    [ SendMessage 42 (searching_text AWAITING_LOCATION "Pune") None true;
      Select (search_query AWAITING_LOCATION "Pune");
      ConsoleError "Error processing text message:";
      SendMessage 42 request_error_text None true;
      SessionsDelete 42 ]) by (vm_compute; reflexivity).
  rewrite Hcalls. split; [reflexivity|]. split; [simpl; tauto|].
  split; [|split; [|reflexivity]].
  - intros (i & j & Hlt & Hi & Hj).
    do 5 (destruct i as [|i]; [simpl in Hi; discriminate Hi || idtac|]).
    + do 5 (destruct j as [|j]; [simpl in Hj; (lia || discriminate Hj)|]).
      simpl in Hj. discriminate Hj.
    + simpl in Hi. discriminate Hi.
  - exists 3%nat, 4%nat. split; [lia|]. split; reflexivity.
Qed.

(** ** The search with a completion *)

(** C4, as the handler has it.  In every run of [/ask query] the handler
    asks for at most one completion and issues at most one read, any
    read it issues is the full-text search for [query] itself, capped at
    5, whatever the completion says, and it shows at most 5 events; when
    the two status lines are delivered and the completion arrives, it
    makes exactly one completion call and exactly one read. *)
Theorem ask_searches_with_the_raw_query env chatId query (m : gmap Z Session) :
  let calls := calls_of (on_ask chatId query) env m in
  ((length (chats calls) <= 1)%nat /\
   (length (selects calls) <= 1)%nat /\
   (forall q, In (Select q) calls -> q = ask_query query) /\
   q_filters (ask_query query) =
     [FEq "is_approved" (VBool true); FTextSearch "event_description" query] /\
   q_limit (ask_query query) = Some 5%nat /\
   (length (rendered calls) <= 5)%nat) /\
  (deliver env 0%nat = true ->
   completion env (ask_prompt query) <> None ->
   deliver env 2%nat = true ->
   chats calls = [MistralChat (model_name env) (ask_prompt query)] /\
   selects calls = [Select (ask_query query)]).
Proof.
  unfold calls_of, run.
  destruct (on_ask chatId query env {| userSessions := m; log := [] |})
    as [w' r] eqn:Hrun. simpl.
  apply on_ask_run in Hrun as (_ & Hshows & Hsel & Hchat & Hexact).
  split; [|intros H0 Hai H2; destruct (Hexact H0 Hai H2); auto].
  split; [destruct Hchat as [-> | ->]; simpl; lia|].
  split; [destruct Hsel as [-> | ->]; simpl; lia|].
  split.
  { intros q Hin. apply select_in_selects in Hin; [|reflexivity].
    destruct Hsel as [Hsel | Hsel]; rewrite Hsel in Hin; simpl in Hin.
    - contradiction.
    - destruct Hin as [[= <-] | []]. reflexivity. }
  split; [reflexivity|]. split; [reflexivity|].
  apply shows_length in Hshows.
  pose proof (run_query_limit (fts env) (ask_query query) (rows env) 5 eq_refl).
  lia.
Qed.

(** C4, as the claim has it, fails: the completion service does not
    answer, the handler goes to its catch block, and the run has one
    completion call and no read at all. *)
Lemma ask_without_completion_never_searches :
  let calls := calls_of (on_ask 42 "conference in Berlin next month")
                 env_completion_down ∅ in
  length (chats calls) = 1%nat /\
  length (selects calls) = 0%nat /\
  length (selects calls) <> 1%nat.
Proof. vm_compute. split; [reflexivity|]. split; [reflexivity | discriminate]. Qed.

Lemma ask_searches_with_the_raw_query_witness :
  chats (calls_of (on_ask 42 "conference in Berlin next month") env_up ∅)
  = [MistralChat "mistral-tiny" (ask_prompt "conference in Berlin next month")] /\
  selects (calls_of (on_ask 42 "conference in Berlin next month") env_up ∅)
  = [Select (ask_query "conference in Berlin next month")].
Proof.
  apply (ask_searches_with_the_raw_query env_up 42
           "conference in Berlin next month" ∅).
  - reflexivity.
  - discriminate.
  - reflexivity.
Defined.

(** ** The list operations *)

Lemma returned_respond env q :
  returned (respond (answer env q)) =
  match fault env q with
  | Some _ => []
  | None => run_query (fts env) q (rows env)
  end.
Proof. unfold respond, answer. destruct (fault env q); reflexivity. Qed.

Lemma returned_approved env q :
  In (FEq "is_approved" (VBool true)) (q_filters q) ->
  Forall (approved_row env) (returned (respond (answer env q))).
Proof.
  intros Hf. rewrite returned_respond. destruct (fault env q); [constructor|].
  apply List.Forall_forall. intros e Hin.
  exact (run_query_approved _ _ _ _ Hf Hin).
Qed.

Lemma returned_capped env q n :
  q_limit q = Some n ->
  (length (returned (respond (answer env q))) <= n)%nat.
Proof.
  intros Hl. rewrite returned_respond. destruct (fault env q); [simpl; lia|].
  exact (run_query_limit _ _ _ _ Hl).
Qed.

Lemma callback_shows_approved env queryId chatId action (m : gmap Z Session) :
  shows_approved env chatId
    (calls_of (on_callback_query queryId chatId action) env m).
Proof.
  destruct (String.eqb action "active_hackathons") eqn:E1.
  { apply String.eqb_eq in E1. subst action.
    apply (presents_approved env chatId (active_query (now env)));
      [|simpl; tauto].
    apply presents_run. intros. eapply callback_active_run; eauto. }
  destruct (String.eqb action "past_events") eqn:E2.
  { apply String.eqb_eq in E2. subst action.
    apply (presents_approved env chatId (past_query (now env)));
      [|simpl; tauto].
    apply presents_run. intros. eapply callback_past_run; eauto. }
  destruct (String.eqb action "popular_events") eqn:E3.
  { apply String.eqb_eq in E3. subst action.
    apply (presents_approved env chatId popular_query); [|simpl; tauto].
    apply presents_run. intros. eapply callback_popular_run; eauto. }
  unfold calls_of, run, on_callback_query, try_catch, bind,
    answerCallbackQuery, sendMessage, sessions_set, console_error, ret.
  simpl. rewrite E1, E2, E3.
  destruct (String.eqb action "search_location");
    [|destruct (String.eqb action "search_category")];
    simpl; deliveries; intros c Hin Hc; simpl in Hin;
    repeat (destruct Hin as [<- | Hin]; [discriminate Hc|]); contradiction.
Qed.

(** C6.  Every row an HTTP list route returns, and every row the chat
    front end shows, through a menu action or after a search text, is a
    row of the table whose approval flag is true. *)
Theorem lists_return_only_approved env :
  (Forall (approved_row env) (returned (get_active env)) /\
   Forall (approved_row env) (returned (get_past env)) /\
   (forall location, Forall (approved_row env) (returned (get_location location env))) /\
   (forall category, Forall (approved_row env) (returned (get_category category env))) /\
   Forall (approved_row env) (returned (get_popular env))) /\
  (forall chatId (m : gmap Z Session),
     shows_approved env chatId (calls_of (handleActiveHackathons chatId) env m) /\
     shows_approved env chatId (calls_of (handlePastEvents chatId) env m) /\
     shows_approved env chatId (calls_of (handlePopularEvents chatId) env m) /\
     (forall queryId action,
        shows_approved env chatId
          (calls_of (on_callback_query queryId chatId action) env m)) /\
     (forall text, shows_approved env chatId (calls_of (on_text chatId text) env m))).
Proof.
  split.
  - repeat split; intros; apply returned_approved; simpl; tauto.
  - intros chatId m. split; [|split; [|split; [|split]]].
    + apply (presents_approved env chatId (active_query (now env)));
        [|simpl; tauto].
      apply presents_run. intros. eapply handleActiveHackathons_run; eauto.
    + apply (presents_approved env chatId (past_query (now env)));
        [|simpl; tauto].
      apply presents_run. intros. eapply handlePastEvents_run; eauto.
    + apply (presents_approved env chatId popular_query); [|simpl; tauto].
      apply presents_run. intros. eapply handlePopularEvents_run; eauto.
    + intros queryId action. apply callback_shows_approved.
    + intros text. destruct (m !! chatId) as [[s]|] eqn:Hs.
      * apply (presents_approved env chatId (search_query s text));
          [|simpl; tauto].
        unfold calls_of, run.
        destruct (on_text chatId text env {| userSessions := m; log := [] |})
          as [w' r] eqn:Hrun. simpl.
        exact (on_text_run env chatId text m s w' r Hs Hrun).
      * unfold calls_of, run. rewrite on_text_idle by exact Hs.
        intros c [].
Qed.

(** C5.  The past and popular operations return, and show, at most 5
    rows.  The active operation and the two filters are not cut: when
    the table answers, the HTTP routes return every row that matches,
    and when in addition every message is delivered the chat handlers
    show every row that matches. *)
Theorem list_caps env :
  ((length (returned (get_past env)) <= 5)%nat /\
   (length (returned (get_popular env)) <= 5)%nat /\
   forall queryId chatId (m : gmap Z Session),
     (length (rendered (calls_of (handlePastEvents chatId) env m)) <= 5)%nat /\
     (length (rendered (calls_of (handlePopularEvents chatId) env m)) <= 5)%nat /\
     (length (rendered (calls_of (on_callback_query queryId chatId "past_events")
                          env m)) <= 5)%nat /\
     (length (rendered (calls_of (on_callback_query queryId chatId "popular_events")
                          env m)) <= 5)%nat) /\
  ((fault env (active_query (now env)) = None ->
    Permutation (returned (get_active env))
      (List.filter (active_row (now env)) (rows env))) /\
   (forall location,
      fault env (search_query AWAITING_LOCATION location) = None ->
      returned (get_location location env) =
        List.filter (searched_row AWAITING_LOCATION location) (rows env)) /\
   (forall category,
      fault env (search_query AWAITING_CATEGORY category) = None ->
      returned (get_category category env) =
        List.filter (searched_row AWAITING_CATEGORY category) (rows env))) /\
  (forall queryId chatId (m : gmap Z Session),
     (forall n, deliver env n = true) ->
     (fault env (active_query (now env)) = None ->
      exists results,
        Permutation results (List.filter (active_row (now env)) (rows env)) /\
        rendered (calls_of (handleActiveHackathons chatId) env m) =
          map (event_call env chatId true) results /\
        rendered (calls_of (on_callback_query queryId chatId "active_hackathons")
                    env m) =
          map (event_call env chatId true) results) /\
     (forall text s,
        m !! chatId = Some {| state := s |} ->
        fault env (search_query s text) = None ->
        rendered (calls_of (on_text chatId text) env m) =
          map (event_call env chatId true)
            (List.filter (searched_row s text) (rows env)))).
Proof.
  split; [|split].
  - split; [apply returned_capped; reflexivity|].
    split; [apply returned_capped; reflexivity|].
    intros queryId chatId m. split; [|split; [|split]].
    + apply (presents_capped env chatId (past_query (now env))); [|reflexivity].
      apply presents_run. intros. eapply handlePastEvents_run; eauto.
    + apply (presents_capped env chatId popular_query); [|reflexivity].
      apply presents_run. intros. eapply handlePopularEvents_run; eauto.
    + apply (presents_capped env chatId (past_query (now env))); [|reflexivity].
      apply presents_run. intros. eapply callback_past_run; eauto.
    + apply (presents_capped env chatId popular_query); [|reflexivity].
      apply presents_run. intros. eapply callback_popular_run; eauto.
  - split; [|split].
    + intros Hup. unfold get_active. fold (active_query (now env)).
      rewrite returned_respond, Hup. apply active_answer.
    + intros location Hup. unfold get_location.
      change (returned (respond (answer env (search_query AWAITING_LOCATION location)))
              = List.filter (searched_row AWAITING_LOCATION location) (rows env)).
      rewrite returned_respond, Hup. apply search_answer.
    + intros category Hup. unfold get_category.
      change (returned (respond (answer env (search_query AWAITING_CATEGORY category)))
              = List.filter (searched_row AWAITING_CATEGORY category) (rows env)).
      rewrite returned_respond, Hup. apply search_answer.
  - intros queryId chatId m Hall. split.
    + intros Hup.
      exists (run_query (fts env) (active_query (now env)) (rows env)).
      split; [apply active_answer|]. split.
      * assert (Hp : presents env chatId (active_query (now env))
                       (calls_of (handleActiveHackathons chatId) env m)).
        { apply presents_run. intros. eapply handleActiveHackathons_run; eauto. }
        destruct Hp as (_ & _ & Hfull). exact (Hfull Hall Hup).
      * assert (Hp : presents env chatId (active_query (now env))
                       (calls_of (on_callback_query queryId chatId
                                    "active_hackathons") env m)).
        { apply presents_run. intros. eapply callback_active_run; eauto. }
        destruct Hp as (_ & _ & Hfull). exact (Hfull Hall Hup).
    + intros text s Hs Hup. rewrite <- (search_answer (fts env)).
      unfold calls_of, run.
      destruct (on_text chatId text env {| userSessions := m; log := [] |})
        as [w' r] eqn:Hrun. simpl.
      destruct (on_text_run env chatId text m s w' r Hs Hrun) as (_ & _ & Hfull).
      exact (Hfull Hall Hup).
Qed.

Lemma list_caps_witness :
  Permutation (returned (get_active env_up))
    (List.filter (active_row (now env_up)) (rows env_up)) /\
  returned (get_location "pun" env_up) =
    List.filter (searched_row AWAITING_LOCATION "pun") (rows env_up) /\
  rendered (calls_of (on_text 42 "WEB") env_up
              {[ 42 := {| state := AWAITING_CATEGORY |} ]}) =
    map (event_call env_up 42 true)
      (List.filter (searched_row AWAITING_CATEGORY "WEB") (rows env_up)).
Proof.
  destruct (list_caps env_up) as (_ & (Hactive & Hlocation & _) & Hchat).
  split; [apply Hactive; reflexivity|].
  split; [apply Hlocation; reflexivity|].
  destruct (Hchat "cb" 42 {[ 42 := {| state := AWAITING_CATEGORY |} ]}
              (fun _ => eq_refl)) as (_ & Htext).
  apply Htext; reflexivity.
Defined.

(** ** The status route *)

(** C9.  The read of the status route is on the event table, cut at one
    row and without any filter, so the row it gets is the first row of
    the table whether approved or not; when the read succeeds the route
    answers 200 and [database.timestamp] is that row's creation time, or
    the current time when the table is empty. *)
Theorem status_probe_reads_any_row env :
  fault env status_probe = None ->
  q_from status_probe = "event_details" /\
  q_limit status_probe = Some 1%nat /\
  q_filters status_probe = [] /\
  ~ In (FEq "is_approved" (VBool true)) (q_filters status_probe) /\
  run_query (fts env) status_probe (rows env) = firstn 1 (rows env) /\
  status_code (get_status env) = 200%nat /\
  database_of (get_status env) =
    Some {| database_status := "connected";
            database_timestamp :=
              Some match rows env with
                   | first :: _ => created_at first
                   | [] => now env
                   end;
            database_error := None |}.
Proof.
  intros Hup.
  assert (Hprobe : run_query (fts env) status_probe (rows env) = firstn 1 (rows env)).
  { unfold run_query. simpl. f_equal.
    induction (rows env) as [|e l IH]; simpl; [reflexivity | now rewrite IH]. }
  split; [reflexivity|]. split; [reflexivity|]. split; [reflexivity|].
  split; [intros []|]. split; [exact Hprobe|].
  unfold get_status, answer. rewrite Hup, Hprobe. simpl.
  split; [reflexivity|].
  destruct (rows env) as [|first others]; reflexivity.
Qed.

(** The first row of the sample table is not approved; the status of
    the sample environment carries its creation time. *)
Lemma status_probe_reads_any_row_witness :
  (is_approved <$> head (rows env_up)) = Some false /\
  database_of (get_status env_up) =
    Some {| database_status := "connected";
            database_timestamp := created_at <$> head (rows env_up);
            database_error := None |}.
Proof.
  split; [reflexivity|].
  destruct (status_probe_reads_any_row env_up eq_refl)
    as (_ & _ & _ & _ & _ & _ & Hdb).
  exact Hdb.
Defined.

(** ** The presenter *)

Lemma message_as_pieces moment e :
  formatEventMessage moment e = join (map piece_text (message_pieces moment e)).
Proof. reflexivity. Qed.

Lemma last_clear_split n s :
  last_clear n s = true ->
  exists s' c, s = s' +:+ String c "" /\ occurs c n = false.
Proof.
  induction s as [|c s IH]; [discriminate|].
  destruct s as [|d s].
  - simpl. intros H. exists "", c. split; [reflexivity|].
    now apply negb_true_iff.
  - intros H. destruct (IH H) as (s' & c' & Heq & Hc).
    exists (String c s'), c'. rewrite append_cons, <- Heq. auto.
Qed.

Lemma includes_join_framed n ps :
  n <> "" ->
  framed n ps = true ->
  (forall s, In (Txt s) ps -> includes n s = false) ->
  includes n (join (map piece_text ps)) = false.
Proof.
  intros Hn. induction ps as [|[s|s] rest IH]; intros Hf Htxt.
  - now apply includes_nil.
  - simpl in Hf. apply andb_true_iff in Hf as [Hf Hrest].
    apply andb_true_iff in Hf as [Hlast Hclean].
    apply negb_true_iff in Hclean.
    destruct (last_clear_split n s Hlast) as (s' & c & -> & Hc).
    change (includes n ((s' +:+ String c "") +:+ join (map piece_text rest)) = false).
    rewrite append_assoc, append_cons.
    change ("" +:+ join (map piece_text rest)) with (join (map piece_text rest)).
    rewrite includes_cut in * by assumption.
    apply orb_false_iff in Hclean as [-> _].
    rewrite IH; [reflexivity | exact Hrest |].
    intros t Ht. apply Htxt. now right.
  - change (includes n (s +:+ join (map piece_text rest)) = false).
    destruct rest as [|[l|t] rest'].
    + change (join (map piece_text [])) with "". rewrite append_nil_r.
      apply Htxt. now left.
    + simpl in Hf. apply andb_true_iff in Hf as [Hfirst Hrest].
      assert (Htail : includes n (join (map piece_text (Lit l :: rest'))) = false).
      { apply IH; [exact Hrest|]. intros t Ht. apply Htxt. now right. }
      change (join (map piece_text (Lit l :: rest')))
        with (l +:+ join (map piece_text rest')) in *.
      destruct l as [|c l]; [discriminate|].
      simpl in Hfirst. apply negb_true_iff in Hfirst.
      rewrite append_cons in *. rewrite includes_cut by assumption.
      rewrite (Htxt s) by now left.
      change (includes n (String c (l +:+ join (map piece_text rest'))))
        with (starts_with n (String c (l +:+ join (map piece_text rest')))
              || includes n (l +:+ join (map piece_text rest'))) in Htail.
      apply orb_false_iff in Htail as [_ ->]. reflexivity.
    + discriminate.
Qed.

Lemma digits_without x d :
  (forall c, In c (list_ascii_of_string "0123456789") -> Ascii.eqb x c = false) ->
  occurs x (NilEmpty.string_of_uint d) = false.
Proof.
  intros Hx. induction d; simpl; [reflexivity|..];
    rewrite IHd, Hx; simpl; tauto.
Qed.

(** A number is shown in digits, with a minus sign when negative. *)
Lemma show_Z_without x z :
  (forall c, In c (list_ascii_of_string "-0123456789") -> Ascii.eqb x c = false) ->
  occurs x (show_Z z) = false.
Proof.
  intros Hx.
  assert (Hd : forall d, occurs x (NilZero.string_of_uint d) = false).
  { intros d.
    assert (H0 : occurs x (NilEmpty.string_of_uint d) = false).
    { apply digits_without. intros c Hc. apply Hx. now right. }
    destruct d; try exact H0. simpl. rewrite Hx; simpl; tauto. }
  unfold show_Z. destruct (Z.to_int z) as [d|d]; simpl.
  - apply Hd.
  - rewrite Hd, Hx; simpl; tauto.
Qed.

Lemma show_Z_rupee_free z : includes "₹" (show_Z z) = false.
Proof.
  apply includes_without_lead, show_Z_without.
  intros c Hc. simpl in Hc.
  repeat (destruct Hc as [<- | Hc]; [reflexivity|]). contradiction.
Qed.

Lemma register_line_rupee_free e :
  includes "₹" (default "" (redirection_link e)) = false ->
  includes "₹" (register_line e) = false.
Proof.
  intros Hlink. unfold register_line.
  destruct (truthy (redirection_link e)); [|reflexivity].
  rewrite <- (append_nil_r (default "" (redirection_link e))).
  apply (includes_join_framed "₹"
           [Lit "• Register: "; Txt (default "" (redirection_link e))]).
  - discriminate.
  - reflexivity.
  - intros s [Hs | [Hs | []]]; [discriminate Hs|].
    injection Hs as <-. exact Hlink.
Qed.

Lemma free_price_line moment e :
  isEventFree e = true ->
  exists before after,
    formatEventMessage moment e =
      before +:+ ("💰 <b>Price:</b> Free" +:+ nl) +:+ after.
Proof.
  intros Hfree.
  exists (join (map piece_text (firstn 22 (message_pieces moment e)))),
         (join (map piece_text (skipn 25 (message_pieces moment e)))).
  rewrite message_as_pieces.
  rewrite <- (firstn_skipn 22 (message_pieces moment e)) at 1.
  rewrite map_app, join_app. f_equal.
  unfold message_pieces, price_text. rewrite Hfree. reflexivity.
Qed.

Lemma paid_price_line moment e :
  isEventFree e = false ->
  exists before after,
    formatEventMessage moment e =
      before +:+ ("💰 <b>Price:</b> ₹" +:+ show_Z (event_price e) +:+ nl) +:+ after.
Proof.
  intros Hpaid.
  exists (join (map piece_text (firstn 22 (message_pieces moment e)))),
         (join (map piece_text (skipn 25 (message_pieces moment e)))).
  rewrite message_as_pieces.
  rewrite <- (firstn_skipn 22 (message_pieces moment e)) at 1.
  rewrite map_app, join_app. f_equal.
  unfold message_pieces, price_text. rewrite Hpaid.
  simpl skipn. simpl map. unfold join. simpl fold_right.
  rewrite !append_assoc. reflexivity.
Qed.

Lemma free_message_rupee_free moment e :
  isEventFree e = true ->
  Forall (fun s => includes "₹" s = false) (displayed_texts moment e) ->
  includes "₹" (formatEventMessage moment e) = false.
Proof.
  intros Hfree Hall.
  assert (Htexts : forall s, In s (displayed_texts moment e) ->
                             includes "₹" s = false).
  { apply List.Forall_forall. exact Hall. }
  rewrite message_as_pieces. apply includes_join_framed.
  - discriminate.
  - reflexivity.
  - intros s Hin. simpl in Hin.
    repeat (destruct Hin as [Hin | Hin];
            [ first [ discriminate Hin
                    | injection Hin as <-;
                      first [ apply show_Z_rupee_free
                            | apply register_line_rupee_free;
                              apply Htexts; simpl; tauto
                            | unfold price_text; rewrite Hfree; reflexivity
                            | apply Htexts; simpl; tauto ] ]
            | ]).
    contradiction.
Qed.

(** C7, as the presenter has it.  For a free event the message holds
    the price line with [Free], does not depend on the price, and holds
    the currency sign only if one of the texts of the event it shows
    holds it; for a paid event the message holds the price line with the
    currency sign and the price. *)
Theorem presenter_price moment e :
  (isEventFree e = true ->
   includes "Free" (formatEventMessage moment e) = true /\
   includes ("💰 <b>Price:</b> Free" +:+ nl) (formatEventMessage moment e) = true /\
   (forall price,
      formatEventMessage moment (with_price price e) = formatEventMessage moment e) /\
   (Forall (fun s => includes "₹" s = false) (displayed_texts moment e) ->
    includes "₹" (formatEventMessage moment e) = false)) /\
  (isEventFree e = false ->
   includes ("₹" +:+ show_Z (event_price e)) (formatEventMessage moment e) = true /\
   includes ("💰 <b>Price:</b> ₹" +:+ show_Z (event_price e) +:+ nl)
     (formatEventMessage moment e) = true).
Proof.
  split.
  - intros Hfree.
    destruct (free_price_line moment e Hfree) as (before & after & Hmsg).
    split; [|split; [|split]].
    + rewrite Hmsg. apply includes_app_r.
      change (("💰 <b>Price:</b> Free" +:+ nl) +:+ after)
        with ("💰 <b>Price:</b> " +:+ "Free" +:+ (nl +:+ after)).
      apply includes_mid.
    + rewrite Hmsg. apply includes_mid.
    + intros price. unfold formatEventMessage, price_text, register_line.
      simpl. rewrite Hfree. reflexivity.
    + apply free_message_rupee_free. exact Hfree.
  - intros Hpaid.
    destruct (paid_price_line moment e Hpaid) as (before & after & Hmsg).
    split.
    + rewrite Hmsg. apply includes_app_r.
      change ("💰 <b>Price:</b> ₹" +:+ show_Z (event_price e) +:+ nl)
        with ("💰 <b>Price:</b> " +:+ ("₹" +:+ show_Z (event_price e) +:+ nl)).
      rewrite append_assoc.
      rewrite <- (append_assoc "₹" (show_Z (event_price e)) nl).
      rewrite append_assoc.
      apply includes_mid.
    + rewrite Hmsg. apply includes_mid.
Qed.

(** C7, as the claim has it, fails: the title of a free event is shown
    as it is, and with it the amount it names. *)
Lemma free_message_shows_amount_of_title :
  isEventFree free_event_with_prize = true /\
  includes ("₹" +:+ "5000")
    (formatEventMessage (fun _ t => show_Z t) free_event_with_prize) = true.
Proof. split; vm_compute; reflexivity. Qed.

Lemma presenter_price_witness :
  let moment := fun (_ : string) (t : Z) => show_Z t in
  let free := sample_event "hack" "Pune" "ai" true true 3000 5 in
  let paid := sample_event "meet" "Delhi" "web" true false 1000 7 in
  (includes "Free" (formatEventMessage moment free) = true /\
   includes "₹" (formatEventMessage moment free) = false) /\
  includes ("₹" +:+ "250") (formatEventMessage moment paid) = true.
Proof.
  intros moment free paid. split.
  - destruct (presenter_price moment free) as [Hfree _].
    destruct (Hfree eq_refl) as (Hword & _ & _ & Hsign).
    split; [exact Hword|]. apply Hsign.
    repeat (constructor; [reflexivity|]). constructor.
  - destruct (presenter_price moment paid) as [_ Hpaid].
    destruct (Hpaid eq_refl) as (Hamount & _). exact Hamount.
Defined.

(** * Further properties of the handlers *)

(** ** What the handlers keep *)

#[local] Instance cleared_preorder chatId : PreOrder (cleared chatId).
Proof.
  split.
  - intros m. now left.
  - intros m1 m2 m3 [-> | ->] [-> | ->]; unfold cleared;
      rewrite ?delete_delete_eq; auto.
Qed.

#[local] Instance written_preorder chatId : PreOrder (written chatId).
Proof.
  split.
  - intros m. now left.
  - intros m1 m2 m3 [-> | [s ->]] [-> | [s' ->]]; unfold written;
      rewrite ?insert_insert_eq; eauto.
Qed.

Section Keeps.
Context (R : relation (gmap Z Session)) `{!PreOrder R}.

Lemma keeps_ret {A} (a : A) : keeps R (ret a).
Proof. intros env w w' r [= <- <-]. reflexivity. Qed.

Lemma keeps_throw {A} message : keeps R (@throw A message).
Proof. intros env w w' r [= <- <-]. reflexivity. Qed.

Lemma keeps_bind {A B} (c : Async A) (k : A -> Async B) :
  keeps R c -> (forall a, keeps R (k a)) -> keeps R (bind c k).
Proof.
  intros Hc Hk env w w' r. unfold bind.
  destruct (c env w) as [w1 [a|message]] eqn:Hrun.
  - intros Hrest. etransitivity; [exact (Hc _ _ _ _ Hrun)|].
    exact (Hk a _ _ _ _ Hrest).
  - intros [= <- <-]. exact (Hc _ _ _ _ Hrun).
Qed.

Lemma keeps_try_catch {A} (body : Async A) (handler : string -> Async A) :
  keeps R body -> (forall message, keeps R (handler message)) ->
  keeps R (try_catch body handler).
Proof.
  intros Hb Hh env w w' r. unfold try_catch.
  destruct (body env w) as [w1 [a|message]] eqn:Hrun.
  - intros [= <- <-]. exact (Hb _ _ _ _ Hrun).
  - intros Hrest. etransitivity; [exact (Hb _ _ _ _ Hrun)|].
    exact (Hh message _ _ _ _ Hrest).
Qed.

Lemma keeps_for_each {A} (xs : list A) (f : A -> Async unit) :
  (forall x, keeps R (f x)) -> keeps R (for_each xs f).
Proof.
  intros Hf. induction xs as [|x xs IH]; simpl.
  - apply keeps_ret.
  - apply keeps_bind; [apply Hf | intros _; exact IH].
Qed.

Lemma keeps_sendMessage chatId text parse_mode :
  keeps R (sendMessage chatId text parse_mode).
Proof. intros env w w' r [= <- <-]. reflexivity. Qed.

Lemma keeps_send_event chatId event : keeps R (send_event chatId event).
Proof. intros env w w' r [= <- <-]. reflexivity. Qed.

Lemma keeps_answerCallbackQuery queryId : keeps R (answerCallbackQuery queryId).
Proof. intros env w w' r [= <- <-]. reflexivity. Qed.

Lemma keeps_console_error label : keeps R (console_error label).
Proof. intros env w w' r [= <- <-]. reflexivity. Qed.

Lemma keeps_supabase q : keeps R (supabase q).
Proof. intros env w w' r [= <- <-]. reflexivity. Qed.

Lemma keeps_mistral_chat content : keeps R (mistral_chat content).
Proof. intros env w w' r [= <- <-]. reflexivity. Qed.

Lemma keeps_date_now : keeps R date_now.
Proof. intros env w w' r [= <- <-]. reflexivity. Qed.

Lemma keeps_sessions_get chatId : keeps R (sessions_get chatId).
Proof. intros env w w' r [= <- <-]. reflexivity. Qed.

Lemma keeps_rows_or_throw result : keeps R (rows_or_throw result).
Proof.
  unfold rows_or_throw.
  destruct (error result); [apply keeps_throw|].
  destruct (data result); [apply keeps_ret | apply keeps_throw].
Qed.

Lemma keeps_sessions_set chatId s :
  (forall m, R m (<[chatId := s]> m)) -> keeps R (sessions_set chatId s).
Proof. intros H env w w' r [= <- <-]. apply H. Qed.

Lemma keeps_sessions_delete chatId :
  (forall m, R m (delete chatId m)) -> keeps R (sessions_delete chatId).
Proof. intros H env w w' r [= <- <-]. apply H. Qed.
End Keeps.

(** One step through a handler, for [keeps]. *)
Ltac keeps_step :=
  match goal with
  | |- keeps ?R (bind _ _) => apply (keeps_bind R); [|intros ?]
  | |- keeps ?R (try_catch _ _) => apply (keeps_try_catch R); [|intros ?]
  | |- keeps ?R (for_each _ _) => apply (keeps_for_each R); intros ?
  | |- keeps ?R (sendMessage _ _ _) => apply (keeps_sendMessage R)
  | |- keeps ?R (send_event _ _) => apply (keeps_send_event R)
  | |- keeps ?R (answerCallbackQuery _) => apply (keeps_answerCallbackQuery R)
  | |- keeps ?R (console_error _) => apply (keeps_console_error R)
  | |- keeps ?R (supabase _) => apply (keeps_supabase R)
  | |- keeps ?R (mistral_chat _) => apply (keeps_mistral_chat R)
  | |- keeps ?R date_now => apply (keeps_date_now R)
  | |- keeps ?R (sessions_get _) => apply (keeps_sessions_get R)
  | |- keeps ?R (rows_or_throw _) => apply (keeps_rows_or_throw R)
  | |- keeps ?R (ret _) => apply (keeps_ret R)
  | |- keeps ?R (throw _) => apply (keeps_throw R)
  | |- keeps _ (if ?b then _ else _) => destruct b
  | |- keeps _ (match ?x with _ => _ end) => destruct x
  end.

Ltac open_handlers :=
  unfold handler, list_handler, on_callback_query, on_text, on_ask,
    handleActiveHackathons, handlePastEvents, handlePopularEvents.

Lemma keeps_list_handler R `{!PreOrder R} op chatId :
  keeps R (list_handler op chatId).
Proof. destruct op; open_handlers; repeat keeps_step. Qed.

Lemma keeps_on_ask R `{!PreOrder R} chatId query : keeps R (on_ask chatId query).
Proof. open_handlers; repeat keeps_step. Qed.

Lemma keeps_on_text chatId text : keeps (cleared chatId) (on_text chatId text).
Proof.
  open_handlers.
  repeat first [ keeps_step
               | apply (keeps_sessions_delete (cleared chatId)); intros ?; now right ].
Qed.

Lemma keeps_on_callback_query queryId chatId action :
  keeps (written chatId) (on_callback_query queryId chatId action).
Proof.
  open_handlers.
  repeat first [ keeps_step
               | apply (keeps_sessions_set (written chatId)); intros ?; right; eauto ].
Qed.

Lemma keeps_sessions_after {A} R (h : Async A) env m :
  keeps R h -> R m (sessions_after h env m).
Proof.
  intros H. unfold sessions_after, run.
  destruct (h env {| userSessions := m; log := [] |}) as [w' r] eqn:Hrun.
  exact (H _ _ _ _ Hrun).
Qed.

(** X1.  A handler called for one chat leaves the session entry of
    every other chat as it was, whatever the table, the completion
    service and the chat platform answer. *)
Theorem sessions_of_other_chats_are_untouched h env chatId other
    (m : gmap Z Session) :
  other <> chatId ->
  sessions_after (handler h chatId) env m !! other = m !! other.
Proof.
  intros Hother. destruct h as [op|queryId action|text|query]; simpl.
  - now rewrite <- (keeps_sessions_after eq _ env m (keeps_list_handler eq op chatId)).
  - destruct (keeps_sessions_after _ _ env m
                (keeps_on_callback_query queryId chatId action)) as [-> | [s ->]];
      [reflexivity | now apply lookup_insert_ne].
  - destruct (keeps_sessions_after _ _ env m (keeps_on_text chatId text))
      as [-> | ->]; [reflexivity | now apply lookup_delete_ne].
  - now rewrite <- (keeps_sessions_after eq _ env m (keeps_on_ask eq chatId query)).
Qed.

Lemma sessions_of_other_chats_are_untouched_witness :
  sessions_after (handler (OfText "Pune") 42) env_store_down
    {[ 42 := {| state := AWAITING_LOCATION |};
       7 := {| state := AWAITING_CATEGORY |} ]} !! 7
  = ({[ 42 := {| state := AWAITING_LOCATION |};
        7 := {| state := AWAITING_CATEGORY |} ]} : gmap Z Session) !! 7.
Proof.
  apply sessions_of_other_chats_are_untouched. discriminate.
Defined.

(** X2.  The three list handlers and the [/ask] handler never change
    the session map, and neither does the callback handler when the
    action is one of the three lists: a pending search survives them. *)
Theorem lists_and_ask_leave_sessions_alone env chatId (m : gmap Z Session) :
  (forall op, sessions_after (list_handler op chatId) env m = m) /\
  (forall query, sessions_after (on_ask chatId query) env m = m) /\
  (forall op queryId,
     sessions_after (on_callback_query queryId chatId (list_action op)) env m = m).
Proof.
  split; [|split].
  - intros op. symmetry.
    exact (keeps_sessions_after eq _ env m (keeps_list_handler eq op chatId)).
  - intros query. symmetry.
    exact (keeps_sessions_after eq _ env m (keeps_on_ask eq chatId query)).
  - intros op queryId. symmetry.
    apply (keeps_sessions_after eq).
    destruct op; open_handlers; simpl; repeat keeps_step.
Qed.

(** X3.  The text handler leaves the session map as it was or with the
    entry of its chat removed, so it never adds an entry; the callback
    handler leaves the map as it was or with the entry of its chat
    written, so it never removes one. *)
Theorem text_only_clears_and_selection_only_writes env chatId
    (m : gmap Z Session) :
  (forall text,
     let m' := sessions_after (on_text chatId text) env m in
     m' = m \/ m' = delete chatId m) /\
  (forall queryId action,
     let m' := sessions_after (on_callback_query queryId chatId action) env m in
     m' = m \/ exists s, m' = <[chatId := s]> m).
Proof.
  split.
  - intros text. exact (keeps_sessions_after _ _ env m (keeps_on_text chatId text)).
  - intros queryId action.
    exact (keeps_sessions_after _ _ env m
             (keeps_on_callback_query queryId chatId action)).
Qed.

(** ** What the handlers call *)

Section Emits.
Variable env : Env.
Variable ok : Call -> Prop.

Lemma emits_ret {A} (a : A) : emits env ok (ret a).
Proof. intros w w' r [= <- <-]. now exists []. Qed.

Lemma emits_throw {A} message : emits env ok (@throw A message).
Proof. intros w w' r [= <- <-]. now exists []. Qed.

Lemma emits_bind {A B} (c : Async A) (k : A -> Async B) :
  emits env ok c -> (forall a, emits env ok (k a)) -> emits env ok (bind c k).
Proof.
  intros Hc Hk w w' r. unfold bind.
  destruct (c env w) as [w1 [a|message]] eqn:Hrun.
  - intros Hrest.
    destruct (Hc _ _ _ Hrun) as (calls1 & Hl1 & Hok1).
    destruct (Hk a _ _ _ Hrest) as (calls2 & Hl2 & Hok2).
    exists (calls2 ++ calls1). split.
    + now rewrite Hl2, Hl1, app_assoc.
    + apply Forall_app. now split.
  - intros [= <- <-]. exact (Hc _ _ _ Hrun).
Qed.

Lemma emits_try_catch {A} (body : Async A) (handler : string -> Async A) :
  emits env ok body -> (forall message, emits env ok (handler message)) ->
  emits env ok (try_catch body handler).
Proof.
  intros Hb Hh w w' r. unfold try_catch.
  destruct (body env w) as [w1 [a|message]] eqn:Hrun.
  - intros [= <- <-]. exact (Hb _ _ _ Hrun).
  - intros Hrest.
    destruct (Hb _ _ _ Hrun) as (calls1 & Hl1 & Hok1).
    destruct (Hh message _ _ _ Hrest) as (calls2 & Hl2 & Hok2).
    exists (calls2 ++ calls1). split.
    + now rewrite Hl2, Hl1, app_assoc.
    + apply Forall_app. now split.
Qed.

Lemma emits_for_each {A} (xs : list A) (f : A -> Async unit) :
  (forall x, emits env ok (f x)) -> emits env ok (for_each xs f).
Proof.
  intros Hf. induction xs as [|x xs IH]; simpl.
  - apply emits_ret.
  - apply emits_bind; [apply Hf | intros _; exact IH].
Qed.

Lemma emits_one {A} (h : Async A) (c : Env -> World -> Call) :
  (forall w, (h env w).1 = record (c env w) w) ->
  (forall w, ok (c env w)) ->
  emits env ok h.
Proof.
  intros Hh Hc w w' r Hrun. exists [c env w]. split.
  - pose proof (Hh w) as H. rewrite Hrun in H. simpl in H. now subst w'.
  - now constructor.
Qed.

Lemma emits_sendMessage chatId text parse_mode :
  (forall b, ok (SendMessage chatId text parse_mode b)) ->
  emits env ok (sendMessage chatId text parse_mode).
Proof.
  intros H.
  apply (emits_one _ (fun env w =>
           SendMessage chatId text parse_mode (deliver env (length (log w)))));
    [reflexivity | intros w; apply H].
Qed.

Lemma emits_send_event chatId event :
  (forall b, ok (event_call env chatId b event)) ->
  emits env ok (send_event chatId event).
Proof. intros H. unfold send_event. now apply emits_sendMessage. Qed.

Lemma emits_answerCallbackQuery queryId :
  (forall b, ok (AnswerCallbackQuery queryId b)) ->
  emits env ok (answerCallbackQuery queryId).
Proof.
  intros H.
  apply (emits_one _ (fun env w =>
           AnswerCallbackQuery queryId (deliver env (length (log w)))));
    [reflexivity | intros w; apply H].
Qed.

Lemma emits_console_error label :
  ok (ConsoleError label) -> emits env ok (console_error label).
Proof.
  intros H. now apply (emits_one _ (fun _ _ => ConsoleError label)).
Qed.

Lemma emits_supabase q : ok (Select q) -> emits env ok (supabase q).
Proof. intros H. now apply (emits_one _ (fun _ _ => Select q)). Qed.

Lemma emits_mistral_chat content :
  ok (MistralChat (model_name env) content) ->
  emits env ok (mistral_chat content).
Proof.
  intros H.
  now apply (emits_one _ (fun env _ => MistralChat (model_name env) content)).
Qed.

Lemma emits_sessions_set chatId s :
  ok (SessionsSet chatId s) -> emits env ok (sessions_set chatId s).
Proof.
  intros H w w' r [= <- <-]. exists [SessionsSet chatId s].
  split; [reflexivity | now constructor].
Qed.

Lemma emits_sessions_delete chatId :
  ok (SessionsDelete chatId) -> emits env ok (sessions_delete chatId).
Proof.
  intros H w w' r [= <- <-]. exists [SessionsDelete chatId].
  split; [reflexivity | now constructor].
Qed.

Lemma emits_date_now : emits env ok date_now.
Proof. intros w w' r [= <- <-]. now exists []. Qed.

Lemma emits_sessions_get chatId : emits env ok (sessions_get chatId).
Proof. intros w w' r [= <- <-]. now exists []. Qed.

Lemma emits_rows_or_throw result : emits env ok (rows_or_throw result).
Proof.
  unfold rows_or_throw.
  destruct (error result); [apply emits_throw|].
  destruct (data result); [apply emits_ret | apply emits_throw].
Qed.

Lemma emits_calls_of {A} (h : Async A) m :
  emits env ok h -> Forall ok (calls_of h env m).
Proof.
  intros H. unfold calls_of, run.
  destruct (h env {| userSessions := m; log := [] |}) as [w' r] eqn:Hrun.
  destruct (H _ _ _ Hrun) as (calls & Hl & Hok). simpl in *.
  rewrite Hl, app_nil_r. apply Forall_rev. exact Hok.
Qed.
End Emits.

(** One step through a handler, for [emits]; what is left is that each
    call is as asked. *)
Ltac emits_step :=
  match goal with
  | |- emits _ _ (bind _ _) => apply emits_bind; [|intros ?]
  | |- emits _ _ (try_catch _ _) => apply emits_try_catch; [|intros ?]
  | |- emits _ _ (for_each _ _) => apply emits_for_each; intros ?
  | |- emits _ _ (sendMessage _ _ _) => apply emits_sendMessage; intros ?
  | |- emits _ _ (send_event _ _) => apply emits_send_event; intros ?
  | |- emits _ _ (answerCallbackQuery _) => apply emits_answerCallbackQuery; intros ?
  | |- emits _ _ (console_error _) => apply emits_console_error
  | |- emits _ _ (supabase _) => apply emits_supabase
  | |- emits _ _ (mistral_chat _) => apply emits_mistral_chat
  | |- emits _ _ (sessions_set _ _) => apply emits_sessions_set
  | |- emits _ _ (sessions_delete _) => apply emits_sessions_delete
  | |- emits _ _ date_now => apply emits_date_now
  | |- emits _ _ (sessions_get _) => apply emits_sessions_get
  | |- emits _ _ (rows_or_throw _) => apply emits_rows_or_throw
  | |- emits _ _ (ret _) => apply emits_ret
  | |- emits _ _ (throw _) => apply emits_throw
  | |- emits _ _ (if ?b then _ else _) => destruct b
  | |- emits _ _ (match ?x with _ => _ end) => destruct x
  end.

Lemma handler_addresses_its_chat h env chatId :
  emits env (addressed_to chatId) (handler h chatId).
Proof.
  destruct h as [[]| | |]; open_handlers; repeat emits_step; simpl; auto.
Qed.

Lemma handler_without_completion h env chatId :
  match h with OfAsk _ => True | _ => emits env (fun c => is_chat c = false) (handler h chatId) end.
Proof.
  destruct h as [[]| | |]; [..|exact I]; open_handlers; repeat emits_step; reflexivity.
Qed.

(** X4.  Every message a handler sends goes to the chat it was called
    for, and every session entry it writes or removes is the entry of
    that chat. *)
Theorem handlers_address_their_own_chat h env chatId (m : gmap Z Session) :
  Forall (addressed_to chatId) (calls_of (handler h chatId) env m).
Proof.
  apply emits_calls_of.
  destruct h as [[]| | |]; open_handlers; repeat emits_step; simpl; auto.
Qed.

(** X5.  Every read a chat handler issues is on the event table, asks
    for all columns and carries the filter on the approval flag; the
    [/ask] search is no exception. *)
Theorem every_read_asks_for_approved_rows h env chatId (m : gmap Z Session) :
  Forall approved_read (calls_of (handler h chatId) env m).
Proof.
  apply emits_calls_of.
  destruct h as [[]| | |]; open_handlers; repeat emits_step; simpl; tauto.
Qed.

(** X6.  Across the handlers of the chat front end a message goes out
    with a parse mode in two cases only: a message that shows an event,
    as HTML, and the fixed text of [/about], as Markdown.  The status
    lines, the counts and the apologies, which carry the text the user
    typed, and the welcome message of [/start] go out without one. *)
Theorem only_events_and_about_carry_a_parse_mode env chatId
    (m : gmap Z Session) :
  (forall h, Forall (well_marked env) (calls_of (handler h chatId) env m)) /\
  Forall unmarked (calls_of (on_start chatId) env m) /\
  Forall command_marked (calls_of (on_about chatId) env m).
Proof.
  split; [|split].
  - intros h. apply emits_calls_of.
    destruct h as [[]| | |]; open_handlers; repeat emits_step; simpl; eauto.
  - apply emits_calls_of. unfold on_start, sendMessage_with.
    repeat emits_step; exact I.
  - apply emits_calls_of. unfold on_about, sendMessage_with.
    repeat emits_step; simpl; auto.
Qed.

Lemma chats_none calls :
  Forall (fun c => is_chat c = false) calls -> chats calls = [].
Proof.
  induction 1 as [|c calls Hc _ IH]; [reflexivity|].
  unfold chats in *. simpl. now rewrite Hc.
Qed.

(** X7.  No handler but the one of [/ask] calls the completion
    service. *)
Theorem only_ask_consults_the_completion_service h env chatId
    (m : gmap Z Session) :
  match h with
  | OfAsk _ => True
  | _ => chats (calls_of (handler h chatId) env m) = []
  end.
Proof.
  pose proof (handler_without_completion h env chatId) as H.
  destruct h; [..|exact I]; apply chats_none, emits_calls_of, H.
Qed.

(** ** How a handler ends *)

(** A catch block throws only when the platform refuses its apology. *)
Lemma catch_block_rejects label chatId text env w w' message :
  (console_error label ;; sendMessage chatId text None) env w = (w', Throw message) ->
  log w' = SendMessage chatId text None false :: ConsoleError label :: log w /\
  deliver env (S (length (log w))) = false.
Proof.
  unfold bind, console_error, sendMessage. simpl.
  destruct (deliver env (S (length (log w)))); [discriminate|].
  intros [= <- _]. auto.
Qed.

Lemma text_catch_block_rejects label chatId text env w w' message :
  (console_error label ;; sendMessage chatId text None ;; sessions_delete chatId)
    env w = (w', Throw message) ->
  log w' = SendMessage chatId text None false :: ConsoleError label :: log w /\
  deliver env (S (length (log w))) = false.
Proof.
  unfold bind, console_error, sendMessage, sessions_delete. simpl.
  destruct (deliver env (S (length (log w)))); [discriminate|].
  intros [= <- _]. auto.
Qed.

Lemma handler_rejects h env chatId w w' message :
  handler h chatId env w = (w', Throw message) ->
  (exists rest, log w' = SendMessage chatId (apology h) None false :: rest) /\
  exists n, deliver env n = false.
Proof.
  destruct h as [[]|queryId action|text|query]; open_handlers;
    try (unfold bind at 1, sessions_get at 1;
         destruct (userSessions w !! chatId); [|discriminate]);
    unfold try_catch;
    match goal with
    | |- (match ?body with _ => _ end) = _ -> _ =>
        destruct body as [w1 [[]|failure]]
    end; [discriminate| | discriminate | | discriminate | | discriminate |
          | discriminate | | discriminate | ]; intros Hcatch;
    first [ apply text_catch_block_rejects in Hcatch
          | apply catch_block_rejects in Hcatch ];
    destruct Hcatch as [Hlog Hrefused]; eauto.
Qed.

(** X8.  A handler ends in a rejection only when the platform has
    refused the apology of its catch block, which is then the last call
    it made: a failure of the table or of the completion service alone
    never makes a handler reject. *)
Theorem a_handler_rejects_only_with_its_apology_refused h env chatId
    (m : gmap Z Session) message :
  (run (handler h chatId) env m).2 = Throw message ->
  exists before,
    calls_of (handler h chatId) env m =
      before ++ [SendMessage chatId (apology h) None false].
Proof.
  unfold calls_of, run.
  destruct (handler h chatId env {| userSessions := m; log := [] |})
    as [w' r] eqn:Hrun. simpl. intros ->.
  destruct (handler_rejects _ _ _ _ _ _ Hrun) as [[rest Hlog] _].
  exists (rev rest). now rewrite Hlog.
Qed.

Lemma a_handler_rejects_only_with_its_apology_refused_witness :
  exists before,
    calls_of (handler (OfText "Pune") 42) env_report_lost
      {[ 42 := {| state := AWAITING_LOCATION |} ]} =
      before ++ [SendMessage 42 (apology (OfText "Pune")) None false].
Proof.
  apply (a_handler_rejects_only_with_its_apology_refused
           (OfText "Pune") env_report_lost 42 _ "ETELEGRAM").
  vm_compute. reflexivity.
Defined.

(** X9.  When the chat platform accepts every call, every handler ends
    normally, whatever the table and the completion service answer. *)
Theorem handlers_complete_when_the_platform_delivers h env chatId
    (m : gmap Z Session) :
  (forall n, deliver env n = true) ->
  (run (handler h chatId) env m).2 = Normal tt.
Proof.
  intros Hall. unfold run.
  destruct (handler h chatId env {| userSessions := m; log := [] |})
    as [w' [[]|message]] eqn:Hrun; [reflexivity|].
  destruct (handler_rejects _ _ _ _ _ _ Hrun) as [_ [n Hn]].
  rewrite Hall in Hn. discriminate.
Qed.

Lemma handlers_complete_when_the_platform_delivers_witness :
  (run (handler (OfAsk "rust meetup") 42) env_store_down ∅).2 = Normal tt.
Proof.
  apply handlers_complete_when_the_platform_delivers. intros n. reflexivity.
Defined.

(** ** The runs with every message delivered *)

Lemma for_each_delivered env chatId events w :
  (forall n, deliver env n = true) ->
  for_each events (send_event chatId) env w =
    ({| userSessions := userSessions w;
        log := rev (map (event_call env chatId true) events) ++ log w |},
     Normal tt).
Proof.
  intros Hall. revert w. induction events as [|e events IH]; intros w.
  - destruct w. reflexivity.
  - simpl. unfold bind, send_event at 1, sendMessage. rewrite Hall.
    rewrite IH. simpl. rewrite <- app_assoc. reflexivity.
Qed.

(** A list handler from any state, when the table answers. *)
Lemma list_handler_delivered op env chatId w :
  (forall n, deliver env n = true) ->
  fault env (list_query op (now env)) = None ->
  list_handler op chatId env w =
    ({| userSessions := userSessions w;
        log := rev (Select (list_query op (now env)) :: list_shown op env chatId)
                 ++ log w |},
     Normal tt).
Proof.
  intros Hall Hup. unfold list_shown.
  destruct op; simpl in *; open_handlers;
    unfold try_catch, bind, date_now, supabase, rows_or_throw, ret, throw, answer;
    simpl;
    match goal with
    | |- context [fault env ?q] =>
        first [ change q with (active_query (now env))
              | change q with (past_query (now env))
              | change q with popular_query ]
    end;
    rewrite Hup; simpl;
    match goal with
    | |- context [run_query ?f ?q ?rs] => destruct (run_query f q rs) as [|e events]
    end; simpl.
  1, 3, 5: unfold sendMessage; rewrite Hall; reflexivity.
  all: match goal with
       | |- context [(send_event ?c ?x ;; for_each ?xs (send_event ?c)) ?env ?w] =>
           change ((send_event c x ;; for_each xs (send_event c)) env w)
             with (for_each (x :: xs) (send_event c) env w)
       end;
    rewrite for_each_delivered by exact Hall; simpl;
    rewrite <- !app_assoc; reflexivity.
Qed.

(** A list handler from any state, when the table fails. *)
Lemma list_handler_failed op env chatId w message :
  fault env (list_query op (now env)) = Some message ->
  list_handler op chatId env w =
    (record (SendMessage chatId fetch_error_text None
               (deliver env (S (S (length (log w))))))
       (record (ConsoleError (list_error_label op))
          (record (Select (list_query op (now env))) w)),
     if deliver env (S (S (length (log w)))) then Normal tt else Throw "ETELEGRAM").
Proof.
  intros Hdown.
  destruct op; simpl in *; open_handlers;
    unfold try_catch, bind, date_now, supabase, rows_or_throw, ret, throw, answer,
      console_error, sendMessage;
    simpl;
    match goal with
    | |- context [fault env ?q] =>
        first [ change q with (active_query (now env))
              | change q with (past_query (now env))
              | change q with popular_query ]
    end;
    rewrite Hdown; reflexivity.
Qed.

Lemma run_of_world {A} (h : Async A) env (m : gmap Z Session) calls r :
  h env {| userSessions := m; log := [] |} =
    ({| userSessions := m; log := rev calls ++ [] |}, r) ->
  run h env m = (m, calls, r).
Proof.
  intros H. unfold run. rewrite H. simpl.
  now rewrite app_nil_r, rev_involutive.
Qed.

(** X10.  When the table answers and every message is delivered, a list
    handler reads once and then shows every row of the answer, in the
    order of the answer, one message each, or sends one line when the
    answer is empty; called through the menu, the same calls follow the
    acknowledgement and the status line. *)
Theorem list_handler_shows_the_answer op env chatId (m : gmap Z Session) :
  (forall n, deliver env n = true) ->
  fault env (list_query op (now env)) = None ->
  run (list_handler op chatId) env m =
    (m, Select (list_query op (now env)) :: list_shown op env chatId, Normal tt) /\
  forall queryId,
    run (on_callback_query queryId chatId (list_action op)) env m =
      (m,
       AnswerCallbackQuery queryId true ::
       SendMessage chatId (list_status_text op) None true ::
       Select (list_query op (now env)) :: list_shown op env chatId,
       Normal tt).
Proof.
  intros Hall Hup. split.
  - apply run_of_world.
    now rewrite (list_handler_delivered op env chatId _ Hall Hup).
  - intros queryId. apply run_of_world.
    pose proof (list_handler_delivered op env chatId) as Hlist.
    destruct op; simpl in *;
      unfold on_callback_query, try_catch, bind at 1, answerCallbackQuery;
      rewrite Hall; simpl;
      unfold bind at 1, sendMessage at 1; rewrite Hall;
      rewrite Hlist by assumption; simpl;
      rewrite <- !app_assoc; reflexivity.
Qed.

Lemma list_handler_shows_the_answer_witness :
  run (list_handler Popular 42) env_up ∅ =
    (∅, Select popular_query :: list_shown Popular env_up 42, Normal tt) /\
  run (on_callback_query "cb1" 42 "popular_events") env_up ∅ =
    (∅,
     AnswerCallbackQuery "cb1" true ::
     SendMessage 42 "🔍 Finding the most popular events..." None true ::
     Select popular_query :: list_shown Popular env_up 42,
     Normal tt).
Proof.
  destruct (list_handler_shows_the_answer Popular env_up 42 ∅)
    as [Hlist Hmenu].
  - intros n. reflexivity.
  - reflexivity.
  - split; [exact Hlist | exact (Hmenu "cb1")].
Defined.

(** X11.  When the table refuses the read, a list handler shows no
    event: it logs the failure, sends the apology and ends, normally if
    the apology is delivered. *)
Theorem list_handler_reports_a_failed_read op env chatId (m : gmap Z Session)
    message :
  fault env (list_query op (now env)) = Some message ->
  run (list_handler op chatId) env m =
    (m,
     [ Select (list_query op (now env));
       ConsoleError (list_error_label op);
       SendMessage chatId fetch_error_text None (deliver env 2) ],
     if deliver env 2 then Normal tt else Throw "ETELEGRAM").
Proof.
  intros Hdown. unfold run.
  rewrite (list_handler_failed op env chatId _ message Hdown). reflexivity.
Qed.

Lemma list_handler_reports_a_failed_read_witness :
  run (list_handler Past 42) env_store_down ∅ =
    (∅,
     [ Select (past_query 2000);
       ConsoleError "Error fetching past events:";
       SendMessage 42 fetch_error_text None true ],
     Normal tt).
Proof.
  apply (list_handler_reports_a_failed_read Past env_store_down 42 ∅ "fetch failed").
  reflexivity.
Defined.

(** The text handler from a state with a pending search, when the table
    answers. *)
Lemma on_text_delivered env chatId text (m : gmap Z Session) s :
  m !! chatId = Some {| state := s |} ->
  (forall n, deliver env n = true) ->
  fault env (search_query s text) = None ->
  run (on_text chatId text) env m =
    (delete chatId m,
     [ SendMessage chatId (searching_text s text) None true;
       Select (search_query s text);
       SendMessage chatId
         (found_text s text
            (length (run_query (fts env) (search_query s text) (rows env))))
         None true ]
     ++ map (event_call env chatId true)
          (run_query (fts env) (search_query s text) (rows env))
     ++ [SessionsDelete chatId],
     Normal tt).
Proof.
  intros Hpending Hall Hup.
  unfold run, on_text, bind at 1, sessions_get at 1. simpl. rewrite Hpending.
  destruct s; simpl in *;
    unfold try_catch, bind, sendMessage, supabase, rows_or_throw, ret, throw,
      answer, sessions_delete;
    simpl;
    match goal with
    | |- context [fault env ?q] =>
        first [ change q with (search_query AWAITING_LOCATION text)
              | change q with (search_query AWAITING_CATEGORY text) ]
    end;
    rewrite Hup, !Hall; simpl;
    match goal with
    | |- context [run_query ?f ?q ?rs] => destruct (run_query f q rs) as [|e events]
    end; simpl; rewrite ?Hall; simpl; try reflexivity;
    match goal with
    | |- context [(send_event ?c ?x ;; for_each ?xs (send_event ?c)) ?env ?w] =>
        change ((send_event c x ;; for_each xs (send_event c)) env w)
          with (for_each (x :: xs) (send_event c) env w)
    end;
    rewrite for_each_delivered by exact Hall; simpl;
    repeat (rewrite ?rev_app_distr, ?rev_involutive; simpl);
    rewrite <- ?app_assoc; reflexivity.
Qed.

(** The text handler from a state with a pending search, when the table
    fails and the messages are delivered. *)
Lemma on_text_failed env chatId text (m : gmap Z Session) s message :
  m !! chatId = Some {| state := s |} ->
  (forall n, deliver env n = true) ->
  fault env (search_query s text) = Some message ->
  calls_of (on_text chatId text) env m =
    [ SendMessage chatId (searching_text s text) None true;
      Select (search_query s text);
      ConsoleError "Error processing text message:";
      SendMessage chatId request_error_text None true;
      SessionsDelete chatId ].
Proof.
  intros Hpending Hall Hdown.
  unfold calls_of, run, on_text, bind at 1, sessions_get at 1. simpl.
  rewrite Hpending.
  destruct s; simpl in *;
    unfold try_catch, bind, sendMessage, supabase, rows_or_throw, ret, throw,
      answer, sessions_delete, console_error;
    simpl;
    match goal with
    | |- context [fault env ?q] =>
        first [ change q with (search_query AWAITING_LOCATION text)
              | change q with (search_query AWAITING_CATEGORY text) ]
    end;
    rewrite Hdown, !Hall; simpl; rewrite ?Hall; reflexivity.
Qed.

(** X12.  With a search pending, the table answering and every message
    delivered, the text handler sends the status line, reads once,
    announces the number of rows of the answer (or that there are none),
    shows exactly those rows in the order of the answer and then removes
    the entry: the number it announces is the number of events it
    shows. *)
Theorem text_search_announces_what_it_shows env chatId text
    (m : gmap Z Session) s :
  m !! chatId = Some {| state := s |} ->
  (forall n, deliver env n = true) ->
  fault env (search_query s text) = None ->
  let results := run_query (fts env) (search_query s text) (rows env) in
  run (on_text chatId text) env m =
    (delete chatId m,
     [ SendMessage chatId (searching_text s text) None true;
       Select (search_query s text);
       SendMessage chatId (found_text s text (length results)) None true ]
     ++ map (event_call env chatId true) results
     ++ [SessionsDelete chatId],
     Normal tt) /\
  length (rendered (calls_of (on_text chatId text) env m)) = length results.
Proof.
  intros Hpending Hall Hup results.
  pose proof (on_text_delivered env chatId text m s Hpending Hall Hup) as Hrun.
  split; [exact Hrun|].
  unfold calls_of. rewrite Hrun. simpl. fold rendered.
  rewrite rendered_app, rendered_event_calls. simpl.
  now rewrite app_nil_r, length_map.
Qed.

Lemma text_search_announces_what_it_shows_witness :
  run (on_text 42 "pune") env_up {[ 42 := {| state := AWAITING_LOCATION |} ]} =
    (delete 42 {[ 42 := {| state := AWAITING_LOCATION |} ]},
     [ SendMessage 42 "🔍 Searching for events in pune..." None true;
       Select (search_query AWAITING_LOCATION "pune");
       SendMessage 42 "📍 Found 1 events in pune:" None true;
       event_call env_up 42 true (sample_event "hack" "Pune" "ai" true true 3000 5);
       SessionsDelete 42 ],
     Normal tt) /\
  length (rendered (calls_of (on_text 42 "pune") env_up
                      {[ 42 := {| state := AWAITING_LOCATION |} ]})) = 1%nat.
Proof.
  apply (text_search_announces_what_it_shows env_up 42 "pune"
           {[ 42 := {| state := AWAITING_LOCATION |} ]} AWAITING_LOCATION).
  - reflexivity.
  - intros n. reflexivity.
  - reflexivity.
Defined.

(** X13.  When the completion service answers, the table answers and
    every message is delivered, the [/ask] handler makes these calls in
    this order: the first status line, the completion, the second status
    line, the read, the line with the number of rows of the answer (or
    that there are none) and one message for each row. *)
Theorem ask_shows_the_answer env chatId query (m : gmap Z Session) :
  (forall n, deliver env n = true) ->
  completion env (ask_prompt query) <> None ->
  fault env (ask_query query) = None ->
  let results := run_query (fts env) (ask_query query) (rows env) in
  run (on_ask chatId query) env m =
    (m,
     [ SendMessage chatId "🤖 Processing your request with AI..." None true;
       MistralChat (model_name env) (ask_prompt query);
       SendMessage chatId "🔍 Searching for matching events..." None true;
       Select (ask_query query);
       SendMessage chatId (ask_found_text (length results)) None true ]
     ++ map (event_call env chatId true) results,
     Normal tt).
Proof.
  intros Hall Hai Hup results. subst results.
  unfold run, on_ask, try_catch, bind, sendMessage, mistral_chat, supabase,
    rows_or_throw, ret, throw, answer.
  simpl. fold (ask_query query).
  destruct (completion env (ask_prompt query)) as [reply|]; [|contradiction].
  rewrite Hup, !Hall. simpl.
  destruct (run_query (fts env) (ask_query query) (rows env)) as [|e events];
    simpl; rewrite ?Hall; simpl; [reflexivity|].
  match goal with
  | |- context [(send_event ?c ?x ;; for_each ?xs (send_event ?c)) ?env ?w] =>
      change ((send_event c x ;; for_each xs (send_event c)) env w)
        with (for_each (x :: xs) (send_event c) env w)
  end.
  rewrite for_each_delivered by exact Hall. simpl.
  repeat (rewrite ?rev_app_distr, ?rev_involutive; simpl).
  reflexivity.
Qed.

Lemma ask_shows_the_answer_witness :
  run (on_ask 42 "meet") env_up ∅ =
    (∅,
     [ SendMessage 42 "🤖 Processing your request with AI..." None true;
       MistralChat "mistral-tiny" (ask_prompt "meet");
       SendMessage 42 "🔍 Searching for matching events..." None true;
       Select (ask_query "meet");
       SendMessage 42 "✨ Found 1 events that might interest you:" None true;
       event_call env_up 42 true (sample_event "meet" "Delhi" "web" true false 1000 7) ],
     Normal tt).
Proof.
  apply (ask_shows_the_answer env_up 42 "meet" ∅).
  - intros n. reflexivity.
  - discriminate.
  - reflexivity.
Defined.

(** X14.  When the completion service fails, the [/ask] handler never
    reads the table: it logs the failure and sends its apology. *)
Theorem ask_without_completion_reads_nothing env chatId query
    (m : gmap Z Session) :
  deliver env 0%nat = true ->
  completion env (ask_prompt query) = None ->
  run (on_ask chatId query) env m =
    (m,
     [ SendMessage chatId "🤖 Processing your request with AI..." None true;
       MistralChat (model_name env) (ask_prompt query);
       ConsoleError "Error processing AI query:";
       SendMessage chatId ask_error_text None (deliver env 3%nat) ],
     if deliver env 3%nat then Normal tt else Throw "ETELEGRAM").
Proof.
  intros Hfirst Hai.
  unfold run, on_ask, try_catch, bind, sendMessage, mistral_chat, console_error.
  simpl. rewrite Hfirst, Hai. reflexivity.
Qed.

Lemma ask_without_completion_reads_nothing_witness :
  run (on_ask 42 "meet") env_completion_down ∅ =
    (∅,
     [ SendMessage 42 "🤖 Processing your request with AI..." None true;
       MistralChat "mistral-tiny" (ask_prompt "meet");
       ConsoleError "Error processing AI query:";
       SendMessage 42 ask_error_text None true ],
     Normal tt).
Proof.
  apply (ask_without_completion_reads_nothing env_completion_down 42 "meet" ∅);
    reflexivity.
Defined.

(** ** The menu and the callback handler *)

Lemma menu_action_cases action :
  In action menu_actions <->
  String.eqb action "active_hackathons" = true \/
  String.eqb action "past_events" = true \/
  String.eqb action "search_location" = true \/
  String.eqb action "search_category" = true \/
  String.eqb action "popular_events" = true.
Proof.
  rewrite !String.eqb_eq. unfold menu_actions. simpl.
  intuition (subst; auto).
Qed.

Lemma emits_anything {A} env ok (h : Async A) :
  emits env ok h -> emits env (fun _ => True) h.
Proof.
  intros H w w' r Hrun. destruct (H _ _ _ Hrun) as (calls & Hlog & _).
  exists calls. split; [exact Hlog|]. apply List.Forall_forall. auto.
Qed.

(** An acknowledged selection whose branch begins with a call: the call
    follows the acknowledgement whatever comes after. *)
Lemma acknowledged_branch (P : Call -> Prop) queryId (first more : Async unit)
    (handler : string -> Async unit) env w w' r :
  deliver env (length (log w)) = true ->
  (forall w0, exists w1 r1 x,
     first env w0 = (w1, r1) /\ log w1 = x :: log w0 /\ P x) ->
  emits env (fun _ => True) more ->
  (forall message, emits env (fun _ => True) (handler message)) ->
  try_catch (answerCallbackQuery queryId ;; first ;; more) handler env w = (w', r) ->
  exists x calls,
    log w' = calls ++ x :: AnswerCallbackQuery queryId true :: log w /\ P x.
Proof.
  intros Hack Hfirst Hmore Hhandler.
  unfold try_catch, bind at 1, answerCallbackQuery. rewrite Hack.
  unfold bind at 1.
  destruct (Hfirst (record (AnswerCallbackQuery queryId true) w))
    as (w1 & r1 & x & -> & Hlog1 & Hx).
  destruct r1 as [[]|failure].
  - destruct (more env w1) as [w2 r2] eqn:Hrun.
    destruct (Hmore _ _ _ Hrun) as (calls2 & Hlog2 & _).
    destruct r2 as [[]|failure].
    + intros [= <- <-]. exists x, calls2. now rewrite Hlog2, Hlog1.
    + intros Hcatch. destruct (Hhandler _ _ _ _ Hcatch) as (calls3 & Hlog3 & _).
      exists x, (calls3 ++ calls2).
      now rewrite Hlog3, Hlog2, Hlog1, <- app_assoc.
  - intros Hcatch. destruct (Hhandler _ _ _ _ Hcatch) as (calls3 & Hlog3 & _).
    exists x, calls3. now rewrite Hlog3, Hlog1.
Qed.

Lemma first_is_message chatId text env w0 :
  exists w1 r1 x,
    sendMessage chatId text None env w0 = (w1, r1) /\ log w1 = x :: log w0 /\
    ((exists text ok, x = SendMessage chatId text None ok) \/
     (exists s, x = SessionsSet chatId s)).
Proof. unfold sendMessage. eauto 10. Qed.

Lemma first_is_write chatId s env w0 :
  exists w1 r1 x,
    sessions_set chatId s env w0 = (w1, r1) /\ log w1 = x :: log w0 /\
    ((exists text ok, x = SendMessage chatId text None ok) \/
     (exists s, x = SessionsSet chatId s)).
Proof. unfold sessions_set. eauto 10. Qed.

(** X15.  The actions the callback handler does something for are
    exactly the actions of the buttons of the main menu.  For an action
    of the menu the acknowledgement is followed by a message to the chat
    or by a write of its session entry; for any other action the handler
    acknowledges and does nothing else. *)
Theorem menu_actions_are_the_handled_ones env queryId chatId action
    (m : gmap Z Session) :
  deliver env 0%nat = true ->
  (In action menu_actions ->
   exists next rest,
     calls_of (on_callback_query queryId chatId action) env m =
       AnswerCallbackQuery queryId true :: next :: rest /\
     ((exists text ok, next = SendMessage chatId text None ok) \/
      (exists s, next = SessionsSet chatId s))) /\
  (~ In action menu_actions ->
   run (on_callback_query queryId chatId action) env m =
     (m, [AnswerCallbackQuery queryId true], Normal tt)).
Proof.
  intros Hack. rewrite menu_action_cases. split.
  - intros Hmenu. unfold calls_of, run.
    destruct (on_callback_query queryId chatId action env
                {| userSessions := m; log := [] |}) as [w' r] eqn:Hrun.
    simpl.
    assert (Hcatch : forall message : string,
              emits env (fun _ => True)
                (console_error "Error handling callback query:" ;;
                 sendMessage chatId selection_error_text None)).
    { intros _. repeat emits_step; exact I. }
    assert (Hlists : forall op, emits env (fun _ => True) (list_handler op chatId)).
    { intros op.
      exact (emits_anything _ _ _ (handler_addresses_its_chat (OfList op) env chatId)). }
    assert (Hprompt : forall text, emits env (fun _ => True)
                                     (sendMessage chatId text None)).
    { intros text. emits_step. exact I. }
    unfold on_callback_query in Hrun.
    assert (Hlog : exists x calls,
              log w' = calls ++ x :: AnswerCallbackQuery queryId true :: [] /\
              ((exists text ok, x = SendMessage chatId text None ok) \/
               (exists s, x = SessionsSet chatId s))).
    { destruct (String.eqb action "active_hackathons");
        [|destruct (String.eqb action "past_events");
          [|destruct (String.eqb action "search_location");
            [|destruct (String.eqb action "search_category");
              [|destruct (String.eqb action "popular_events");
                [|exfalso; intuition discriminate]]]]];
        cbv iota in Hrun;
        (eapply acknowledged_branch in Hrun;
         [ exact Hrun
         | exact Hack
         | intros ?; first [apply first_is_message | apply first_is_write]
         | first [ apply (Hlists Active) | apply (Hlists Past)
                 | apply (Hlists Popular) | apply Hprompt ]
         | exact Hcatch ]). }
    destruct Hlog as (x & calls & -> & Hx).
    exists x, (rev calls). split; [|exact Hx].
    rewrite rev_app_distr. reflexivity.
  - intros Hother.
    assert (H1 : String.eqb action "active_hackathons" = false)
      by (destruct (String.eqb action "active_hackathons"); tauto).
    assert (H2 : String.eqb action "past_events" = false)
      by (destruct (String.eqb action "past_events"); tauto).
    assert (H3 : String.eqb action "search_location" = false)
      by (destruct (String.eqb action "search_location"); tauto).
    assert (H4 : String.eqb action "search_category" = false)
      by (destruct (String.eqb action "search_category"); tauto).
    assert (H5 : String.eqb action "popular_events" = false)
      by (destruct (String.eqb action "popular_events"); tauto).
    unfold run, on_callback_query, try_catch, bind, answerCallbackQuery, ret.
    simpl. rewrite Hack, H1, H2, H3, H4, H5. reflexivity.
Qed.

Lemma menu_actions_are_the_handled_ones_witness :
  (exists next rest,
     calls_of (on_callback_query "cb1" 42 "search_category") env_up ∅ =
       AnswerCallbackQuery "cb1" true :: next :: rest /\
     ((exists text ok, next = SendMessage 42 text None ok) \/
      (exists s, next = SessionsSet 42 s))) /\
  run (on_callback_query "cb1" 42 "share_event") env_up ∅ =
    (∅, [AnswerCallbackQuery "cb1" true], Normal tt).
Proof.
  split.
  - apply (menu_actions_are_the_handled_ones env_up "cb1" 42 "search_category" ∅);
      [reflexivity | vm_compute; tauto].
  - apply (menu_actions_are_the_handled_ones env_up "cb1" 42 "share_event" ∅);
      [reflexivity|].
    vm_compute. intuition discriminate.
Defined.

(** X16.  When the platform refuses the acknowledgement, the callback
    handler does nothing of what the action asks, whatever the action:
    it reads nothing, leaves the session map as it was, logs the failure
    and sends its apology. *)
Theorem refused_acknowledgement_stops_the_selection env queryId chatId action
    (m : gmap Z Session) :
  deliver env 0%nat = false ->
  run (on_callback_query queryId chatId action) env m =
    (m,
     [ AnswerCallbackQuery queryId false;
       ConsoleError "Error handling callback query:";
       SendMessage chatId selection_error_text None (deliver env 2%nat) ],
     if deliver env 2%nat then Normal tt else Throw "ETELEGRAM").
Proof.
  intros Hack.
  unfold run, on_callback_query, try_catch, bind, answerCallbackQuery,
    console_error, sendMessage.
  simpl. rewrite Hack. reflexivity.
Qed.

Lemma refused_acknowledgement_stops_the_selection_witness :
  run (on_callback_query "cb1" 42 "search_location") env_first_refused ∅ =
    (∅,
     [ AnswerCallbackQuery "cb1" false;
       ConsoleError "Error handling callback query:";
       SendMessage 42 selection_error_text None true ],
     Normal tt).
Proof.
  apply (refused_acknowledgement_stops_the_selection
           env_first_refused "cb1" 42 "search_location" ∅).
  reflexivity.
Defined.

(** ** The chat front end and the HTTP front end *)

Lemma returned_list_route op env :
  returned (list_route op env) =
  match fault env (list_query op (now env)) with
  | Some _ => []
  | None => run_query (fts env) (list_query op (now env)) (rows env)
  end.
Proof. destruct op; apply returned_respond. Qed.

Lemma returned_search_route s text env :
  returned (search_route s text env) =
  match fault env (search_query s text) with
  | Some _ => []
  | None => run_query (fts env) (search_query s text) (rows env)
  end.
Proof. destruct s; apply returned_respond. Qed.

Lemma rendered_list_shown op env chatId :
  rendered (list_shown op env chatId) =
  map (event_call env chatId true)
    (run_query (fts env) (list_query op (now env)) (rows env)).
Proof.
  unfold list_shown.
  destruct (run_query _ _ _) as [|e events]; [reflexivity|].
  apply rendered_event_calls.
Qed.

(** X17.  The chat front end and the HTTP front end list the same
    events: when every message is delivered, the events a list handler
    shows are the rows the route of that list returns, in the same
    order, and the events the text handler shows for a pending search
    are the rows the route of that search returns for the same text.
    When the table fails both show none. *)
Theorem chat_and_http_list_the_same_events env chatId (m : gmap Z Session) :
  (forall n, deliver env n = true) ->
  (forall op,
     rendered (calls_of (list_handler op chatId) env m) =
       map (event_call env chatId true) (returned (list_route op env))) /\
  (forall s text,
     m !! chatId = Some {| state := s |} ->
     rendered (calls_of (on_text chatId text) env m) =
       map (event_call env chatId true) (returned (search_route s text env))).
Proof.
  intros Hall. split.
  - intros op. rewrite returned_list_route. unfold calls_of, run.
    destruct (fault env (list_query op (now env))) as [message|] eqn:Hfault.
    + rewrite (list_handler_failed op env chatId _ message Hfault). reflexivity.
    + rewrite (list_handler_delivered op env chatId _ Hall Hfault). simpl.
      rewrite app_nil_r, rev_app_distr, rev_involutive. simpl. fold rendered.
      apply rendered_list_shown.
  - intros s text Hpending. rewrite returned_search_route.
    destruct (fault env (search_query s text)) as [message|] eqn:Hfault.
    + rewrite (on_text_failed env chatId text m s message Hpending Hall Hfault).
      reflexivity.
    + unfold calls_of.
      rewrite (on_text_delivered env chatId text m s Hpending Hall Hfault).
      simpl. fold rendered.
      rewrite rendered_app, rendered_event_calls. simpl. now rewrite app_nil_r.
Qed.

Lemma chat_and_http_list_the_same_events_witness :
  rendered (calls_of (list_handler Active 42) env_up
              {[ 42 := {| state := AWAITING_CATEGORY |} ]}) =
    map (event_call env_up 42 true) (returned (get_active env_up)) /\
  rendered (calls_of (on_text 42 "WEB") env_up
              {[ 42 := {| state := AWAITING_CATEGORY |} ]}) =
    map (event_call env_up 42 true) (returned (get_category "WEB" env_up)).
Proof.
  destruct (chat_and_http_list_the_same_events env_up 42
              {[ 42 := {| state := AWAITING_CATEGORY |} ]}) as [Hlist Htext].
  - intros n. reflexivity.
  - split.
    + exact (Hlist Active).
    + exact (Htext AWAITING_CATEGORY "WEB" eq_refl).
Defined.

(** X18.  A failure inside the catch block of a list handler reaches
    the catch block of the callback handler that called it: when the
    table refuses the read the list handler logs and apologises, and
    when the platform refuses that apology the callback handler logs in
    its turn and sends its own. *)
Theorem nested_failure_reaches_the_outer_catch op env queryId chatId
    (m : gmap Z Session) message :
  deliver env 0%nat = true ->
  deliver env 1%nat = true ->
  fault env (list_query op (now env)) = Some message ->
  run (on_callback_query queryId chatId (list_action op)) env m =
    (m,
     [ AnswerCallbackQuery queryId true;
       SendMessage chatId (list_status_text op) None true;
       Select (list_query op (now env));
       ConsoleError (list_error_label op);
       SendMessage chatId fetch_error_text None (deliver env 4%nat) ]
     ++ (if deliver env 4%nat then []
         else [ ConsoleError "Error handling callback query:";
                SendMessage chatId selection_error_text None (deliver env 6%nat) ]),
     if deliver env 4%nat then Normal tt
     else if deliver env 6%nat then Normal tt else Throw "ETELEGRAM").
Proof.
  intros Hack Hstatus Hdown.
  pose proof (list_handler_failed op env chatId) as Hlist.
  unfold run.
  destruct op; simpl in *;
    unfold on_callback_query, try_catch, bind at 1, answerCallbackQuery;
    simpl; rewrite Hack;
    unfold bind at 1, sendMessage at 1; simpl; rewrite Hstatus;
    rewrite (Hlist _ message Hdown); simpl;
    destruct (deliver env 4); simpl; try reflexivity;
    unfold bind, console_error, sendMessage; simpl;
    destruct (deliver env 6); reflexivity.
Qed.

Lemma nested_failure_reaches_the_outer_catch_witness :
  run (on_callback_query "cb1" 42 "past_events") env_apology_lost ∅ =
    (∅,
     [ AnswerCallbackQuery "cb1" true;
       SendMessage 42 "🔍 Fetching past events..." None true;
       Select (past_query 2000);
       ConsoleError "Error fetching past events:";
       SendMessage 42 fetch_error_text None false;
       ConsoleError "Error handling callback query:";
       SendMessage 42 selection_error_text None true ],
     Normal tt).
Proof.
  apply (nested_failure_reaches_the_outer_catch Past env_apology_lost "cb1" 42 ∅
           "fetch failed"); reflexivity.
Defined.

(** ** The order of a list *)

Section Order.
Variable key : Event -> Z.
Variable column : string.
Hypothesis column_key :
  forall a b, before column false a b = Z.leb (key b) (key a).

Lemma insert_sorted_descending e l :
  StronglySorted (fun a b => key b <= key a) l ->
  StronglySorted (fun a b => key b <= key a) (insert_sorted column false e l).
Proof.
  induction 1 as [|x l Hl IH Hx]; simpl.
  - repeat constructor.
  - rewrite column_key. destruct (Z.leb (key x) (key e)) eqn:Hle.
    + apply Z.leb_le in Hle. constructor; [now constructor|].
      constructor; [exact Hle|].
      apply List.Forall_forall. intros y Hy.
      rewrite List.Forall_forall in Hx. specialize (Hx y Hy). simpl in Hx. lia.
    + apply Z.leb_gt in Hle. constructor; [exact IH|].
      eapply Permutation_Forall; [symmetry; apply insert_sorted_perm|].
      constructor; [lia | exact Hx].
Qed.

Lemma sort_rows_descending l :
  StronglySorted (fun a b => key b <= key a) (sort_rows column false l).
Proof.
  induction l as [|x l IH]; simpl; [constructor|].
  now apply insert_sorted_descending.
Qed.
End Order.

Lemma sorted_descending key l :
  StronglySorted (fun a b : Event => key b <= key a) l -> descending key l.
Proof.
  induction 1 as [|x l Hl IH Hx]; intros i j a b Hij Ha Hb.
  - destruct i; discriminate.
  - destruct j as [|j]; [lia|]. simpl in Hb.
    destruct i as [|i]; simpl in Ha.
    + injection Ha as <-. rewrite List.Forall_forall in Hx.
      apply Hx. apply list_elem_of_In. exact (list_elem_of_lookup_2 _ _ _ Hb).
    + apply (IH i j); [lia | exact Ha | exact Hb].
Qed.

Lemma descending_firstn key n l : descending key l -> descending key (firstn n l).
Proof.
  intros H i j a b Hij Ha Hb.
  apply lookup_take_Some in Ha as [Ha _]. apply lookup_take_Some in Hb as [Hb _].
  exact (H i j a b Hij Ha Hb).
Qed.

(** A row that the cut leaves out comes after every row it keeps. *)
Lemma beyond_the_cut key n l r e :
  StronglySorted (fun a b : Event => key b <= key a) l ->
  In r (firstn n l) -> In e l -> ~ In e (firstn n l) -> key e <= key r.
Proof.
  revert l. induction n as [|n IH]; intros l Hs Hr He Hout; [contradiction|].
  destruct l as [|x l]; [contradiction|].
  apply StronglySorted_inv in Hs as [Hs Hx]. rewrite List.Forall_forall in Hx.
  simpl in *.
  destruct He as [-> | He]; [tauto|].
  destruct Hr as [<- | Hr]; [now apply Hx|].
  apply (IH l); tauto.
Qed.

Lemma likes_order a b :
  before "event_likes" false a b = Z.leb (event_likes b) (event_likes a).
Proof. unfold before. simpl. symmetry. apply Z.leb_antisym. Qed.

Lemma enddate_order a b :
  before "event_enddate" false a b = Z.leb (event_enddate b) (event_enddate a).
Proof. unfold before. simpl. symmetry. apply Z.leb_antisym. Qed.

Lemma created_order a b :
  before "created_at" false a b = Z.leb (created_at b) (created_at a).
Proof. unfold before. simpl. symmetry. apply Z.leb_antisym. Qed.

Lemma matches_past fts currentDate e :
  matches fts (q_filters (past_query currentDate)) e = past_row currentDate e.
Proof.
  unfold past_row. simpl.
  destruct (is_approved e); simpl; now rewrite ?andb_true_r, ?andb_false_r.
Qed.

Lemma matches_popular fts e :
  matches fts (q_filters popular_query) e = is_approved e.
Proof. simpl. destruct (is_approved e); reflexivity. Qed.

(** X19.  Each list route returns its rows in the order it asks the
    table for: the active events from the latest created to the
    earliest, the past events from the latest ended to the earliest, the
    popular events from the most liked to the least. *)
Theorem list_routes_are_ordered env :
  descending created_at (returned (get_active env)) /\
  descending event_enddate (returned (get_past env)) /\
  descending event_likes (returned (get_popular env)).
Proof.
  unfold get_active, get_past, get_popular.
  rewrite !returned_respond.
  split; [|split];
    (destruct (fault env _); [intros [|i] j a b _ Ha; discriminate Ha|]);
    unfold run_query; simpl.
  - apply sorted_descending, sort_rows_descending, created_order.
  - apply descending_firstn, sorted_descending, sort_rows_descending,
      enddate_order.
  - apply descending_firstn, sorted_descending, sort_rows_descending,
      likes_order.
Qed.

(** X20.  The cut at five rows keeps the rows that come first in the
    order: an approved row of the table that the popular route does not
    return has no more likes than any row it returns, and an approved
    row with an end date in the past that the past route does not return
    ended no later than any row it returns. *)
Theorem capped_routes_keep_the_first_rows env :
  (forall r e,
     In r (returned (get_popular env)) ->
     In e (rows env) -> is_approved e = true ->
     ~ In e (returned (get_popular env)) ->
     event_likes e <= event_likes r) /\
  (forall r e,
     In r (returned (get_past env)) ->
     In e (rows env) -> past_row (now env) e = true ->
     ~ In e (returned (get_past env)) ->
     event_enddate e <= event_enddate r).
Proof.
  unfold get_popular, get_past. rewrite !returned_respond.
  split; intros r e Hr Hrow Hmatch Hout;
    (destruct (fault env _); [contradiction|]);
    unfold run_query in Hr, Hout; simpl in Hr, Hout.
  - eapply beyond_the_cut;
      [apply sort_rows_descending, likes_order | exact Hr | | exact Hout].
    eapply Permutation_in; [symmetry; apply sort_rows_perm|].
    apply filter_In. split; [exact Hrow|].
    rewrite <- (matches_popular (fts env)) in Hmatch. exact Hmatch.
  - eapply beyond_the_cut;
      [apply sort_rows_descending, enddate_order | exact Hr | | exact Hout].
    eapply Permutation_in; [symmetry; apply sort_rows_perm|].
    apply filter_In. split; [exact Hrow|].
    rewrite <- (matches_past (fts env)) in Hmatch. exact Hmatch.
Qed.

Lemma capped_routes_keep_the_first_rows_witness :
  event_likes (sample_event "e" "Pune" "ai" true true 100 1)
    <= event_likes (sample_event "e" "Pune" "ai" true true 300 3) /\
  event_enddate (sample_event "e" "Pune" "ai" true true 200 2)
    <= event_enddate (sample_event "e" "Pune" "ai" true true 700 7).
Proof.
  destruct (capped_routes_keep_the_first_rows env_busy) as [Hpopular Hpast].
  split.
  - apply Hpopular.
    + vm_compute. tauto.
    + vm_compute. tauto.
    + reflexivity.
    + vm_compute. intuition discriminate.
  - apply Hpast.
    + vm_compute. tauto.
    + vm_compute. tauto.
    + reflexivity.
    + vm_compute. intuition discriminate.
Defined.

(** X21.  The active list and the past list share no row: a row of the
    active list ends after the current time and a row of the past list
    before it, so an event that ends at the very instant of the request
    is in neither list. *)
Theorem active_and_past_lists_are_disjoint env e :
  (In e (returned (get_active env)) -> now env < event_enddate e) /\
  (In e (returned (get_past env)) -> event_enddate e < now env) /\
  (event_enddate e = now env ->
   ~ In e (returned (get_active env)) /\ ~ In e (returned (get_past env))) /\
  ~ (In e (returned (get_active env)) /\ In e (returned (get_past env))).
Proof.
  assert (Hactive : In e (returned (get_active env)) -> now env < event_enddate e).
  { unfold get_active. rewrite returned_respond.
    destruct (fault env _); [contradiction|]. intros Hin.
    apply run_query_sound in Hin as [_ Hm].
    change (matches (fts env) (q_filters (active_query (now env))) e = true) in Hm.
    rewrite matches_active in Hm. unfold active_row in Hm.
    apply andb_true_iff in Hm as [Hm _]. now apply Z.ltb_lt. }
  assert (Hpast : In e (returned (get_past env)) -> event_enddate e < now env).
  { unfold get_past. rewrite returned_respond.
    destruct (fault env _); [contradiction|]. intros Hin.
    apply run_query_sound in Hin as [_ Hm].
    change (matches (fts env) (q_filters (past_query (now env))) e = true) in Hm.
    rewrite matches_past in Hm. unfold past_row in Hm.
    apply andb_true_iff in Hm as [Hm _]. now apply Z.ltb_lt. }
  split; [exact Hactive|]. split; [exact Hpast|]. split.
  - intros Hnow. split; intros Hin; [apply Hactive in Hin | apply Hpast in Hin]; lia.
  - intros [Ha Hp]. apply Hactive in Ha. apply Hpast in Hp. lia.
Qed.

Lemma active_and_past_lists_are_disjoint_witness :
  let ending := sample_event "hack" "Pune" "ai" true true 3000 5 in
  In ending (rows env_closing) /\
  ~ In ending (returned (get_active env_closing)) /\
  ~ In ending (returned (get_past env_closing)).
Proof.
  intros ending. split; [right; left; reflexivity|].
  destruct (active_and_past_lists_are_disjoint env_closing ending)
    as (_ & _ & Hnow & _).
  exact (Hnow eq_refl).
Defined.

(** ** The completion service and the search *)

Lemma for_each_completion f env chatId events w :
  for_each events (send_event chatId) (with_completion f env) w =
  for_each events (send_event chatId) env w.
Proof.
  revert w. induction events as [|e events IH]; intros w; [reflexivity|].
  simpl. unfold bind.
  change (send_event chatId e (with_completion f env) w)
    with (send_event chatId e env w).
  destruct (send_event chatId e env w) as [w1 [[]|failure]];
    [apply IH | reflexivity].
Qed.

(** X22.  What the completion service replies has no effect on what the
    [/ask] handler does: two services that both answer the prompt lead
    to the same calls, the same session map and the same end, whatever
    their replies are. *)
Theorem ask_ignores_what_the_completion_says env chatId query
    (m : gmap Z Session) (f g : string -> option string) :
  f (ask_prompt query) <> None ->
  g (ask_prompt query) <> None ->
  run (on_ask chatId query) (with_completion f env) m =
  run (on_ask chatId query) (with_completion g env) m.
Proof.
  intros Hf Hg.
  unfold run, on_ask, try_catch, bind, sendMessage, mistral_chat, supabase,
    rows_or_throw, ret, throw, answer, console_error.
  simpl.
  destruct (f (ask_prompt query)) as [reply1|]; [|contradiction].
  destruct (g (ask_prompt query)) as [reply2|]; [|contradiction].
  destruct (deliver env 0); simpl; [|reflexivity].
  destruct (deliver env 2); simpl; [|reflexivity].
  destruct (fault env _); simpl; [reflexivity|].
  destruct (length _ =? 0)%nat; simpl; [reflexivity|].
  destruct (deliver env 4); simpl; [|reflexivity].
  rewrite !for_each_completion. reflexivity.
Qed.

Lemma ask_ignores_what_the_completion_says_witness :
  run (on_ask 42 "meet") (with_completion (fun _ => Some "a meetup") env_up) ∅ =
  run (on_ask 42 "meet")
    (with_completion (fun _ => Some "an exhibition in Delhi") env_up) ∅.
Proof.
  apply ask_ignores_what_the_completion_says; discriminate.
Defined.

(** ** The letter case of a search text *)

Lemma star_to_percent_lower c :
  lower (if Ascii.eqb c "*" then "%"%char else c) =
  (if Ascii.eqb (lower c) "*" then "%"%char else lower c).
Proof. destruct c as [[] [] [] [] [] [] [] []]; reflexivity. Qed.

Lemma lowercase_star_to_percent s :
  lowercase (star_to_percent s) = star_to_percent (lowercase s).
Proof.
  induction s as [|c s IH]; [reflexivity|].
  simpl. now rewrite IH, star_to_percent_lower.
Qed.

Lemma ilike_letter_case t1 t2 field :
  lowercase t1 = lowercase t2 ->
  ilike_match ("%" +:+ t1 +:+ "%") field = ilike_match ("%" +:+ t2 +:+ "%") field.
Proof.
  intros H. unfold ilike_match.
  rewrite !lowercase_star_to_percent, !lowercase_app, H. reflexivity.
Qed.

(** X23.  The search does not tell letter case: two search texts that
    differ only in the case of the letters A to Z select the same rows,
    through the HTTP routes and through the text handler alike. *)
Theorem search_ignores_letter_case env s t1 t2 :
  lowercase t1 = lowercase t2 ->
  run_query (fts env) (search_query s t1) (rows env) =
  run_query (fts env) (search_query s t2) (rows env) /\
  (fault env (search_query s t1) = None ->
   fault env (search_query s t2) = None ->
   search_route s t1 env = search_route s t2 env).
Proof.
  intros Hcase.
  assert (Hrows : run_query (fts env) (search_query s t1) (rows env) =
                  run_query (fts env) (search_query s t2) (rows env)).
  { rewrite !search_answer. apply filter_ext. intros e.
    unfold searched_row. now rewrite (ilike_letter_case t1 t2 _ Hcase). }
  split; [exact Hrows|].
  intros Hup1 Hup2.
  assert (Hroute : forall t, search_route s t env =
                             respond (answer env (search_query s t)))
    by (intros t; destruct s; reflexivity).
  rewrite !Hroute. unfold respond, answer. rewrite Hup1, Hup2. simpl.
  now rewrite Hrows.
Qed.

Lemma search_ignores_letter_case_witness :
  run_query (fts env_up) (search_query AWAITING_LOCATION "PUNE") (rows env_up) =
  run_query (fts env_up) (search_query AWAITING_LOCATION "pune") (rows env_up) /\
  get_location "PUNE" env_up = get_location "pune" env_up.
Proof.
  destruct (search_ignores_letter_case env_up AWAITING_LOCATION "PUNE" "pune" eq_refl)
    as [Hrows Hroute].
  split; [exact Hrows | exact (Hroute eq_refl eq_refl)].
Defined.

(** ** The texts of a message *)

Lemma includes_trans a b c :
  includes a b = true -> includes b c = true -> includes a c = true.
Proof.
  rewrite !includes_occurrence.
  intros (x & y & ->) (u & v & ->). exists (u +:+ x), (y +:+ v).
  now rewrite !append_assoc.
Qed.

Lemma includes_piece p ps :
  In p ps -> includes (piece_text p) (join (map piece_text ps)) = true.
Proof.
  induction ps as [|q ps IH]; [contradiction|].
  change (join (map piece_text (q :: ps)))
    with (piece_text q +:+ join (map piece_text ps)).
  intros [-> | Hin].
  - apply includes_here, starts_with_app.
  - apply includes_app_r, IH, Hin.
Qed.

Lemma includes_link e :
  includes (default "" (redirection_link e)) (register_line e) = true.
Proof.
  unfold register_line, truthy.
  destruct (redirection_link e) as [link|]; [|reflexivity].
  destruct (String.eqb link "") eqn:Hlink.
  - apply String.eqb_eq in Hlink. subst link. reflexivity.
  - change (includes link ("• Register: " +:+ link) = true).
    apply includes_app_r, includes_here.
    pose proof (starts_with_app link "") as H.
    now rewrite append_nil_r in H.
Qed.

(** X24.  The message of an event holds each text of the event as the
    table has it: the title, the description, the location, the dates as
    formatted, the registration link, the organizer fields, the category
    and the identifier are put in unchanged, markup included, into a
    message that goes out as HTML. *)
Theorem message_holds_the_texts_unchanged moment e :
  Forall (fun t => includes t (formatEventMessage moment e) = true)
    (displayed_texts moment e).
Proof.
  rewrite message_as_pieces.
  assert (Hpiece : forall t, In (Txt t) (message_pieces moment e) ->
                             includes t (join (map piece_text (message_pieces moment e))) = true).
  { intros t Hin. exact (includes_piece (Txt t) _ Hin). }
  repeat constructor;
    first [ apply Hpiece; simpl; tauto
          | apply (includes_trans _ (register_line e));
            [apply includes_link | apply Hpiece; simpl; tauto] ].
Qed.

(** ** The request limiter *)

(** X25.  The limiter leaves a request out of the count exactly when it
    has no key for it: [skip] answers true if and only if what
    [keyGenerator] returns is empty, so every request that is counted is
    counted under a key.  A request whose body carries a chat identifier
    is counted under that identifier, whatever its address. *)
Theorem limiter_skips_exactly_the_keyless req :
  Limiter.skip req = negb (Js.truthy (Limiter.keyGenerator req)) /\
  (Js.truthy (Limiter.chat_id req) = true ->
   Limiter.keyGenerator req = Limiter.chat_id req /\ Limiter.skip req = false) /\
  (Js.truthy (Limiter.chat_id req) = false ->
   Limiter.keyGenerator req = Limiter.ip req).
Proof.
  unfold Limiter.skip, Limiter.keyGenerator, Js.or.
  destruct (Js.truthy (Limiter.chat_id req)) eqn:Hid; simpl.
  - rewrite Hid. repeat split; auto; discriminate.
  - repeat split; auto; discriminate.
Qed.

Lemma limiter_skips_exactly_the_keyless_witness :
  let from_chat :=
    {| Limiter.body :=
         Js.object [("message",
           Js.object [("chat",
             Js.object [("id", Js.number (QArith_base.Qmake 42 1))])])];
       Limiter.ip := Js.text "10.0.0.7" |} in
  let from_browser :=
    {| Limiter.body := Js.object []; Limiter.ip := Js.text "10.0.0.7" |} in
  (Limiter.keyGenerator from_chat = Js.number (QArith_base.Qmake 42 1) /\
   Limiter.skip from_chat = false) /\
  Limiter.keyGenerator from_browser = Js.text "10.0.0.7".
Proof.
  intros from_chat from_browser. split.
  - destruct (limiter_skips_exactly_the_keyless from_chat) as (_ & Hchat & _).
    exact (Hchat eq_refl).
  - destruct (limiter_skips_exactly_the_keyless from_browser) as (_ & _ & Hip).
    exact (Hip eq_refl).
Defined.

(** ** The pattern of the [/ask] command *)

Lemma starts_with_longer t p a :
  starts_with t p = true -> starts_with t (p +:+ a) = true.
Proof.
  intros H. apply starts_with_split in H as [b ->].
  rewrite append_assoc. apply starts_with_app.
Qed.

Lemma at_line_terminator_longer p a :
  at_line_terminator p = true -> at_line_terminator (p +:+ a) = true.
Proof.
  unfold at_line_terminator. rewrite !orb_true_iff.
  intros [[[H | H] | H] | H]; apply (starts_with_longer _ _ a) in H; auto.
Qed.

(** What [.+] takes is a beginning of the text, holds no line
    terminator and ends at one or at the end of the text. *)
Lemma dot_run_split s :
  exists after,
    s = dot_run s +:+ after /\
    (after = "" \/ at_line_terminator after = true) /\
    one_line (dot_run s) = true.
Proof.
  induction s as [|c s (after & Heq & Hend & Hline)].
  - exists "". auto.
  - simpl dot_run. destruct (at_line_terminator (String c s)) eqn:Hc.
    + exists (String c s). auto.
    + exists after. rewrite append_cons, <- Heq. split; [reflexivity|].
      split; [exact Hend|].
      change (negb (at_line_terminator (String c (dot_run s)))
              && one_line (dot_run s) = true).
      rewrite Hline, andb_true_r. apply negb_true_iff.
      destruct (at_line_terminator (String c (dot_run s))) eqn:Hcut;
        [|reflexivity].
      apply (at_line_terminator_longer _ after) in Hcut.
      rewrite append_cons, <- Heq in Hcut. congruence.
Qed.

Lemma dot_run_one_line s : one_line s = true -> dot_run s = s.
Proof.
  induction s as [|c s IH]; [reflexivity|].
  change (one_line (String c s))
    with (negb (at_line_terminator (String c s)) && one_line s).
  intros H. apply andb_true_iff in H as [Hc Hs]. apply negb_true_iff in Hc.
  simpl dot_run. now rewrite Hc, IH.
Qed.

Lemma ask_match_here_sound s query :
  ask_match_here s = Some query ->
  query <> "" /\ one_line query = true /\
  exists after,
    s = "/ask " +:+ query +:+ after /\
    (after = "" \/ at_line_terminator after = true).
Proof.
  unfold ask_match_here.
  destruct (starts_with "/ask " s) eqn:Hstart; [|discriminate].
  apply starts_with_split in Hstart as [b ->].
  change (drop_chars 5 ("/ask " +:+ b)) with b.
  destruct (dot_run_split b) as (after & Heq & Hend & Hline).
  destruct (dot_run b) as [|c q] eqn:Hrun; [discriminate|].
  intros [= <-]. split; [discriminate|]. split; [exact Hline|].
  exists after. now rewrite <- Heq.
Qed.

Lemma ask_match_unfold text :
  ask_match text =
  match ask_match_here text with
  | Some q => Some q
  | None =>
      match text with
      | EmptyString => None
      | String _ text' => ask_match text'
      end
  end.
Proof. destruct text; reflexivity. Qed.

Lemma ask_match_here_needs s :
  starts_with "/ask " s = false -> ask_match_here s = None.
Proof. unfold ask_match_here. now intros ->. Qed.

(** X26.  What the pattern of the [/ask] command hands to the handler
    as the query: a text that is not empty and holds no line terminator,
    that follows [/ask ] in the message and runs to the end of the
    message or of its line.  A message without [/ask ] in it does not
    match, and the message made of [/ask ] and a one-line text hands
    over that text. *)
Theorem ask_pattern_captures_the_rest_of_the_line text query :
  (ask_match text = Some query ->
   query <> "" /\ one_line query = true /\
   exists before after,
     text = before +:+ "/ask " +:+ query +:+ after /\
     (after = "" \/ at_line_terminator after = true)) /\
  (includes "/ask " text = false -> ask_match text = None) /\
  (query <> "" -> one_line query = true ->
   ask_match ("/ask " +:+ query) = Some query).
Proof.
  split; [|split].
  - induction text as [|c text IH]; rewrite ask_match_unfold.
    + destruct (ask_match_here "") eqn:Hhere; [|discriminate].
      intros [= ->]. apply ask_match_here_sound in Hhere
        as (Hne & Hline & after & Heq & Hend).
      repeat split; auto. now exists "", after.
    + destruct (ask_match_here (String c text)) eqn:Hhere.
      * intros [= ->]. apply ask_match_here_sound in Hhere
          as (Hne & Hline & after & Heq & Hend).
        repeat split; auto. now exists "", after.
      * intros Hlater. destruct (IH Hlater)
          as (Hne & Hline & before & after & Heq & Hend).
        repeat split; auto. exists (String c before), after.
        now rewrite append_cons, <- Heq.
  - induction text as [|c text IH]; rewrite ask_match_unfold.
    + reflexivity.
    + change (includes "/ask " (String c text))
        with (starts_with "/ask " (String c text) || includes "/ask " text).
      intros H. apply orb_false_iff in H as [Hhere Hlater].
      rewrite (ask_match_here_needs _ Hhere). auto.
  - intros Hne Hline. rewrite ask_match_unfold.
    unfold ask_match_here. rewrite starts_with_app.
    change (drop_chars 5 ("/ask " +:+ query)) with query.
    rewrite (dot_run_one_line _ Hline).
    destruct query; [contradiction | reflexivity].
Qed.

Lemma ask_pattern_captures_the_rest_of_the_line_witness :
  ask_match "/ask rust meetups in Pune" = Some "rust meetups in Pune" /\
  ask_match "/ask" = None.
Proof.
  split.
  - apply (ask_pattern_captures_the_rest_of_the_line
             "/ask rust meetups in Pune" "rust meetups in Pune");
      [discriminate | reflexivity].
  - apply (ask_pattern_captures_the_rest_of_the_line "/ask" "").
    reflexivity.
Defined.

(** ** The answers of the routes *)

(** X27.  A route of the HTTP front end answers 500 exactly when the
    table reports an error for its read, and the body is then the
    message of the table and holds no row; otherwise it answers 200
    with the rows of the answer.  The status route does the same with
    its probe, and reports the server as running either way. *)
Theorem routes_answer_500_when_the_read_fails env :
  (forall op,
     match fault env (list_query op (now env)) with
     | Some message =>
         list_route op env = {| status_code := 500; body := JError message |}
     | None =>
         list_route op env =
           {| status_code := 200;
              body := JRows (Some (run_query (fts env) (list_query op (now env))
                                     (rows env))) |}
     end) /\
  (forall s text,
     match fault env (search_query s text) with
     | Some message =>
         search_route s text env = {| status_code := 500; body := JError message |}
     | None =>
         search_route s text env =
           {| status_code := 200;
              body := JRows (Some (run_query (fts env) (search_query s text)
                                     (rows env))) |}
     end) /\
  (status_code (get_status env) =
     match fault env status_probe with Some _ => 500%nat | None => 200%nat end) /\
  (exists status database,
     body (get_status env) =
       JStatus status
         {| server_status := "running"; server_timestamp := now env;
            environment := environment_tag env |} database /\
     database_error database = fault env status_probe).
Proof.
  split; [|split; [|split]].
  - intros op.
    assert (Hroute : list_route op env =
                     respond (answer env (list_query op (now env))))
      by (destruct op; reflexivity).
    rewrite Hroute. unfold respond, answer.
    destruct (fault env (list_query op (now env))); reflexivity.
  - intros s text.
    assert (Hroute : search_route s text env =
                     respond (answer env (search_query s text)))
      by (destruct s; reflexivity).
    rewrite Hroute. unfold respond, answer.
    destruct (fault env (search_query s text)); reflexivity.
  - unfold get_status, answer. destruct (fault env status_probe); reflexivity.
  - unfold get_status, answer. destruct (fault env status_probe); simpl; eauto.
Qed.

(** ** The search pattern *)

























